(** * Notification orchestrator of the driver application

    A shallow embedding of [src/Notifications.tsx] (class
    [NotificationService]) and the properties its specification states.

    Conventions of the embedding.
    - JavaScript values are the inductive [value]; an object is the list
      of its own enumerable properties in enumeration order (the order
      [Object.keys] and [JSON.stringify] follow), with [Object.prototype]
      as its prototype.  Numbers are the safe integers (of magnitude at
      most 2^53 - 1), which [String] and [JSON.stringify] print digit
      by digit; strings are Rocq strings (UTF-8 bytes, so indexing a
      primitive string is exact for ASCII text).  [String] of an object
      with an own [toString] property throws, as no value here is
      callable.
    - The service's fields, the device storage, the pending timers, the
      application state the listeners act on and the chronological list
      of calls made to the collaborators form the [world].
    - An [async] method is a computation [M T]: it takes a world and
      gives an [outcome] (resolved with a value, or rejected/thrown with
      an error) and the world it leaves.  State written before a throw
      stays written, as in JavaScript.  [await] is sequencing: the
      runtime is single threaded and each property below is about one
      task.
    - A listener is a reference to a closure of the application: called
      with the event's data it changes the application state, may call
      [on] and [off] of the service, and returns or throws.  It calls
      nothing else of the service.  [emit] walks the live array of the
      event's listeners, as [Array.prototype.forEach] does.
    - [setTimeout] adds its callback and delay to the pending timers;
      nothing here runs a timer by itself.
    - What the vendor SDKs answer is the environment [env].
    - [console.log] and [console.error] have no effect on the state and
      are left out. *)

From Stdlib Require Import ZArith Lia Ascii String DecimalString.
From stdpp Require Import base option list strings gmap.

Local Open Scope string_scope.
Local Open Scope list_scope.

(** ** Outcomes of a call: normal completion or a thrown error *)

Inductive exn : Type := Error (message : string).

Inductive outcome (T : Type) : Type :=
| Ok (x : T)
| Throw (e : exn).
Arguments Ok {T} x.
Arguments Throw {T} e.

(** ** JavaScript values *)

Module JS.

(** [Number.MAX_SAFE_INTEGER] and the integers up to it in magnitude. *)
Definition MAX_SAFE_INTEGER : Z := 9007199254740991.

Definition is_safe (z : Z) : bool := (Z.abs z <=? MAX_SAFE_INTEGER)%Z.

Record safe_int : Type := { int_val : Z; int_safe : is_safe int_val = true }.

#[warnings="-register-all"]
Inductive value : Type :=
| VUndef
| VNull
| VBool (b : bool)
| VNum (n : safe_int)
| VStr (s : string)
| VObj (props : list (string * value)).

Definition props_t := list (string * value).

Definition is_str (v : value) : bool :=
  match v with VStr _ => true | _ => false end.

(** [ToBoolean]: what [if (v)] and [v || d] test. *)
Definition truthy (v : value) : bool :=
  match v with
  | VUndef | VNull => false
  | VBool b => b
  | VNum n => negb (int_val n =? 0)%Z
  | VStr EmptyString => false
  | VStr _ => true
  | VObj _ => true
  end.

(** [a || d]. *)
Definition or_else (a d : value) : value := if truthy a then a else d.

Definition string_of_nat (n : nat) : string :=
  NilZero.string_of_uint (Nat.to_uint n).

Definition string_of_Z (z : Z) : string :=
  NilZero.string_of_int (Z.to_int z).

(** Strict equality [===] on the values compared in the source
    (a property against a string literal). *)
Definition is_string_lit (v : value) (lit : string) : bool :=
  match v with VStr s => String.eqb s lit | _ => false end.

(** Own enumerable properties of a character string: one per index. *)
Fixpoint indexed_chars (i : nat) (s : string) : props_t :=
  match s with
  | EmptyString => []
  | String c s' => (string_of_nat i, VStr (String c EmptyString)) :: indexed_chars (S i) s'
  end.

(** The own enumerable string-keyed properties [Object.keys] lists. *)
Definition own_props (v : value) : props_t :=
  match v with
  | VObj ps => ps
  | VStr s => indexed_chars 0 s
  | _ => []
  end.

(** [Object.keys(v)] for a value that is neither [undefined] nor [null]. *)
Definition keys (v : value) : list string := map fst (own_props v).

Fixpoint assoc (ps : props_t) (k : string) : option value :=
  match ps with
  | [] => None
  | (k', v) :: ps' => if String.eqb k' k then Some v else assoc ps' k
  end.

(** [v?.[k]] and, on a value that is not nullish, [v[k]], for the keys
    the source reads ([type], [title], [body], and the keys that
    [Object.keys] returned). *)
Definition get (v : value) (k : string) : value :=
  match assoc (own_props v) k with
  | Some x => x
  | None => VUndef
  end.

(** [String(v)].  For an object the conversion looks for [toString]:
    an own property of that name hides [Object.prototype.toString] and,
    not being callable, leaves only [valueOf], which returns the object
    itself: a [TypeError].  Without it the result is
    ["[object Object]"]. *)
Definition js_String (v : value) : outcome string :=
  match v with
  | VUndef => Ok "undefined"
  | VNull => Ok "null"
  | VBool true => Ok "true"
  | VBool false => Ok "false"
  | VNum n => Ok (string_of_Z (int_val n))
  | VStr s => Ok s
  | VObj ps =>
      match assoc ps "toString" with
      | Some _ => Throw (Error "TypeError: Cannot convert object to primitive value")
      | None => Ok "[object Object]"
      end
  end.

(** [o[k] = v] on an object that has the property [k] or no setter for
    it: overwrite in place, or add the property last. *)
Fixpoint set (ps : props_t) (k : string) (v : value) : props_t :=
  match ps with
  | [] => [(k, v)]
  | (k', v') :: ps' =>
      if String.eqb k' k then (k', v) :: ps' else (k', v') :: set ps' k v
  end.

(** *** [JSON.stringify] *)

Definition hex_digit (n : N) : ascii :=
  match n with
  | 0 => "0" | 1 => "1" | 2 => "2" | 3 => "3" | 4 => "4" | 5 => "5"
  | 6 => "6" | 7 => "7" | 8 => "8" | 9 => "9" | 10 => "a" | 11 => "b"
  | 12 => "c" | 13 => "d" | 14 => "e" | _ => "f"
  end%N%char.

(** One character of [QuoteJSONString]. *)
Definition dquote : ascii := ascii_of_N 34.
Definition bslash : ascii := ascii_of_N 92.

Definition json_escape_char (c : ascii) : string :=
  let n := N_of_ascii c in
  if (n =? 34)%N then String bslash (String dquote EmptyString)
  else if (n =? 92)%N then String bslash (String bslash EmptyString)
  else if (n =? 8)%N then "\b"
  else if (n =? 12)%N then "\f"
  else if (n =? 10)%N then "\n"
  else if (n =? 13)%N then "\r"
  else if (n =? 9)%N then "\t"
  else if (n <? 32)%N then
    "\u00" +:+ String (hex_digit (n / 16)) (String (hex_digit (n mod 16)) EmptyString)
  else String c EmptyString.

Fixpoint json_escape (s : string) : string :=
  match s with
  | EmptyString => EmptyString
  | String c s' => json_escape_char c +:+ json_escape s'
  end.

Definition json_quote (s : string) : string :=
  String dquote (json_escape s +:+ String dquote EmptyString).

Definition comma_join (l : list string) : string := String.concat "," l.

(** [JSON.stringify(v)]; [None] is the [undefined] it returns for
    [undefined].  A property whose value is [undefined] is left out. *)
Fixpoint json_stringify (v : value) : option string :=
  match v with
  | VUndef => None
  | VNull => Some "null"
  | VBool true => Some "true"
  | VBool false => Some "false"
  | VNum n => Some (string_of_Z (int_val n))
  | VStr s => Some (json_quote s)
  | VObj ps =>
      let fix members (ps : props_t) : list string :=
        match ps with
        | [] => []
        | (k, x) :: ps' =>
            match json_stringify x with
            | Some sx => (json_quote k +:+ ":" +:+ sx) :: members ps'
            | None => members ps'
            end
        end in
      Some ("{" +:+ comma_join (members ps) +:+ "}")
  end.

Fixpoint json_members (ps : props_t) : list string :=
  match ps with
  | [] => []
  | (k, x) :: ps' =>
      match json_stringify x with
      | Some sx => (json_quote k +:+ ":" +:+ sx) :: json_members ps'
      | None => json_members ps'
      end
  end.

(** [JSON.stringify] of an object literal. *)
Definition json_object (ps : props_t) : string :=
  "{" +:+ comma_join (json_members ps) +:+ "}".

End JS.


(** ** The collaborators' data *)

(** [Platform.OS]. *)
Inductive os : Type := android | ios.

Definition os_name (p : os) : string :=
  match p with android => "android" | ios => "ios" end.

(** [messaging.AuthorizationStatus] of the push provider. *)
Inductive AuthorizationStatus : Type :=
| NOT_DETERMINED | DENIED | AUTHORIZED | PROVISIONAL | EPHEMERAL.

Definition status_eqb (a b : AuthorizationStatus) : bool :=
  match a, b with
  | NOT_DETERMINED, NOT_DETERMINED | DENIED, DENIED | AUTHORIZED, AUTHORIZED
  | PROVISIONAL, PROVISIONAL | EPHEMERAL, EPHEMERAL => true
  | _, _ => false
  end.

(** The renderer's enumerations, as far as the source names them. *)
Inductive AndroidImportance : Type := HIGH.
Inductive AndroidVisibility : Type := PUBLIC.

(** Argument of [notifee.createChannel]. *)
Record channel : Type := {
  ch_id : string;
  ch_name : string;
  ch_description : string;
  ch_importance : AndroidImportance;
  ch_sound : string;
  ch_vibration : bool;
  ch_lights : bool;
  ch_bypassDnd : bool;
  ch_visibility : AndroidVisibility
}.

Record press_action : Type := { pa_id : string; pa_launchActivity : string }.

Record android_config : Type := {
  an_channelId : string;
  an_smallIcon : string;
  an_color : string;
  an_pressAction : press_action;
  an_sound : string;
  an_lights : string * Z * Z;
  an_importance : AndroidImportance;
  an_priority : string;
  an_visibility : AndroidVisibility;
  an_autoCancel : bool;
  an_ongoing : bool
}.

Record ios_config : Type := {
  ios_sound : string;
  ios_critical : bool;
  ios_criticalVolume : Z
}.

(** Argument of [notifee.displayNotification]. *)
Record payload : Type := {
  p_title : JS.value;
  p_body : JS.value;
  p_data : JS.props_t;
  p_android : android_config;
  p_ios : ios_config
}.

(** Argument of [showLocalNotification]: the DisplayRequest. *)
Record display_request : Type := {
  dr_title : JS.value;
  dr_body : JS.value;
  dr_data : JS.value
}.

(** The provider's [RemoteMessage], as far as the handlers read it. *)
Record message_notification : Type := {
  mn_title : option string;
  mn_body : option string
}.

Record remote_message : Type := {
  rm_notification : option message_notification;
  rm_data : JS.value
}.

(** What [notifee.getInitialNotification] resolves to when the
    application was opened from a notification. *)
Record notifee_notification : Type := { nn_data : JS.value }.
Record initial_notification : Type := { in_notification : notifee_notification }.

(** A listener is a reference to a closure of the application:
    [indexOf] compares references. *)
Definition fn_ref := nat.

(** What a listener may call of the service while it runs. *)
Inductive registry_call : Type :=
| CallOn (event : string) (callback : fn_ref)
| CallOff (event : string) (callback : fn_ref).

(** The callback handed to [setTimeout]. *)
Inductive task : Type :=
| EmitLater (event : string) (data : JS.value).

(** Calls the service makes, in the order it makes them. *)
Inductive call : Type :=
| RequestPermission
| CreateChannel (c : channel)
| DisplayNotification (p : payload)
| GetToken
| SetItem (key val : string)
| GetItem (key : string)
| Fetch (url authorization body : string)
| OnMessage
| SetBackgroundMessageHandler
| OnTokenRefresh
| GetInitialNotification
| OnForegroundEvent
| Emit (event : string) (data : JS.value)
| Listener (f : fn_ref) (data : JS.value).

(** What the collaborators answer. *)
Record env : Type := {
  platform_OS : os;
  requestPermission : outcome AuthorizationStatus;
  createChannel : channel -> outcome unit;
  displayNotification : payload -> outcome unit;
  getToken : outcome string;
  setItem : string -> string -> outcome unit;
  getItem : string -> outcome unit;
  fetch : string -> string -> string -> outcome bool;
  onMessage : outcome unit;
  setBackgroundMessageHandler : outcome unit;
  onTokenRefresh : outcome unit;
  getInitialNotification : outcome (option initial_notification);
  onForegroundEvent : outcome unit
}.

Definition API_BASE : string := "https://backendddd-2xa6.onrender.com".

(** ** The service *)

Section Service.

(** The application state the listeners act on, and the closure each
    listener reference denotes: called with the event's data it
    returns or throws, leaves a new application state, and has made
    the listed calls of [on] and [off], in this order. *)
Variable A : Type.
Variable closures :
  fn_ref -> JS.value -> A -> outcome unit * A * list registry_call.
Variable E : env.

Record world : Type := {
  listeners : gmap string (list fn_ref);
  fcmToken : option string;
  notificationInitialized : bool;
  storage : gmap string string;
  timers : list (Z * task);
  trace : list call;
  app : A
}.

Definition set_listeners (x : gmap string (list fn_ref)) (w : world) : world :=
  {| listeners := x; fcmToken := fcmToken w;
     notificationInitialized := notificationInitialized w;
     storage := storage w; timers := timers w; trace := trace w; app := app w |}.

Definition set_fcmToken (x : option string) (w : world) : world :=
  {| listeners := listeners w; fcmToken := x;
     notificationInitialized := notificationInitialized w;
     storage := storage w; timers := timers w; trace := trace w; app := app w |}.

Definition set_notificationInitialized (x : bool) (w : world) : world :=
  {| listeners := listeners w; fcmToken := fcmToken w;
     notificationInitialized := x;
     storage := storage w; timers := timers w; trace := trace w; app := app w |}.

Definition set_storage (x : gmap string string) (w : world) : world :=
  {| listeners := listeners w; fcmToken := fcmToken w;
     notificationInitialized := notificationInitialized w;
     storage := x; timers := timers w; trace := trace w; app := app w |}.

Definition set_timers (x : list (Z * task)) (w : world) : world :=
  {| listeners := listeners w; fcmToken := fcmToken w;
     notificationInitialized := notificationInitialized w;
     storage := storage w; timers := x; trace := trace w; app := app w |}.

Definition set_app (x : A) (w : world) : world :=
  {| listeners := listeners w; fcmToken := fcmToken w;
     notificationInitialized := notificationInitialized w;
     storage := storage w; timers := timers w; trace := trace w; app := x |}.

(** Append a call to the chronological trace. *)
Definition record (c : call) (w : world) : world :=
  {| listeners := listeners w; fcmToken := fcmToken w;
     notificationInitialized := notificationInitialized w;
     storage := storage w; timers := timers w; trace := trace w ++ [c];
     app := app w |}.

(** *** Computations that may throw *)

Definition M (T : Type) : Type := world -> outcome T * world.

Definition ret {T} (x : T) : M T := fun w => (Ok x, w).

Definition bind {T U} (m : M T) (k : T -> M U) : M U :=
  fun w =>
    match m w with
    | (Ok x, w') => k x w'
    | (Throw e, w') => (Throw e, w')
    end.

Definition throw {T} (e : exn) : M T := fun w => (Throw e, w).

(** [try { m } catch (e) { h e }]. *)
Definition try_catch {T} (m : M T) (h : exn -> M T) : M T :=
  fun w =>
    match m w with
    | (Ok x, w') => (Ok x, w')
    | (Throw e, w') => h e w'
    end.

Definition modify (f : world -> world) : M unit := fun w => (Ok tt, f w).

Definition gets {T} (f : world -> T) : M T := fun w => (Ok (f w), w).

(** A call to a vendor SDK: recorded, then answered by the environment. *)
Definition sdk {T} (c : call) (answer : outcome T) : M T :=
  fun w => (answer, record c w).

(** An [async] method called without [await]: its body runs (no
    method here suspends before its end), its outcome is dropped. *)
Definition not_awaited {T} (m : M T) : M unit :=
  fun w => (Ok tt, snd (m w)).

Declare Scope svc_scope.
Delimit Scope svc_scope with svc.
Bind Scope svc_scope with M.
Notation "x <- m ;; k" := (bind m (fun x => k))
  (at level 100, m at next level, k at level 200, right associativity,
   only parsing) : svc_scope.
Notation "m ;; k" := (bind m (fun _ => k))
  (at level 100, k at level 200, right associativity, only parsing)
  : svc_scope.
Local Open Scope svc_scope.

(** A value computed without the world, or the error it threw. *)
Definition lift {T} (o : outcome T) : M T := fun w => (o, w).

(** *** Device storage *)

Definition AsyncStorage_setItem (key val : string) : M unit :=
  sdk (SetItem key val) (setItem E key val) ;;
  modify (fun w => set_storage (<[key := val]> (storage w)) w).

Definition AsyncStorage_getItem (key : string) : M (option string) :=
  sdk (GetItem key) (getItem E key) ;;
  gets (fun w => storage w !! key).

(** *** [createNotificationChannel] *)

Definition high_priority_channel : channel :=
  {| ch_id := "high_priority_channel";
     ch_name := "Ride Requests";
     ch_description := "High priority ride notifications with sound";
     ch_importance := HIGH;
     ch_sound := "notification";
     ch_vibration := true;
     ch_lights := true;
     ch_bypassDnd := true;
     ch_visibility := PUBLIC |}.

Definition createNotificationChannel : M unit :=
  match platform_OS E with
  | android =>
      try_catch
        (sdk (CreateChannel high_priority_channel)
             (createChannel E high_priority_channel))
        (fun _ => ret tt)
  | ios => ret tt
  end.

(** *** [showLocalNotification]: the display entry point *)

(** The callback of the loop: [stringData[key] = String(data[key])].
    [String] may throw.  [stringData] is a plain object: the
    assignment of a string to [__proto__] goes to the setter of
    [Object.prototype], which ignores it; every other key becomes or
    overwrites an own property. *)
Definition coerce_key (data : JS.value) (acc : JS.props_t) (key : string)
    : outcome JS.props_t :=
  match JS.js_String (JS.get data key) with
  | Ok s =>
      if String.eqb key "__proto__" then Ok acc
      else Ok (JS.set acc key (JS.VStr s))
  | Throw e => Throw e
  end.

(** [keys.forEach(key => ...)] from [stringData = acc]: the first throw
    ends the loop. *)
Fixpoint coerce_keys (data : JS.value) (keys : list string) (acc : JS.props_t)
    : outcome JS.props_t :=
  match keys with
  | [] => Ok acc
  | key :: keys' =>
      match coerce_key data acc key with
      | Ok acc' => coerce_keys data keys' acc'
      | Throw e => Throw e
      end
  end.

(** [stringData] after [Object.keys(data).forEach(...)], which runs
    when [data] is truthy. *)
Definition stringData (data : JS.value) : outcome JS.props_t :=
  if JS.truthy data then coerce_keys data (JS.keys data) [] else Ok [].

Definition androidConfig : android_config :=
  {| an_channelId := "high_priority_channel";
     an_smallIcon := "ic_launcher";
     an_color := "#FF0000";
     an_pressAction := {| pa_id := "default"; pa_launchActivity := "default" |};
     an_sound := "notification";
     an_lights := ("#FF0000", 300%Z, 1000%Z);
     an_importance := HIGH;
     an_priority := "high";
     an_visibility := PUBLIC;
     an_autoCancel := false;
     an_ongoing := false |}.

(** The object handed to [notifee.displayNotification]. *)
Definition notification_of (n : display_request) (data : JS.props_t) : payload :=
  {| p_title := dr_title n;
     p_body := dr_body n;
     p_data := data;
     p_android := androidConfig;
     p_ios := {| ios_sound := "default"; ios_critical := true;
                 ios_criticalVolume := 1%Z |} |}.

(** What [showLocalNotification] has built when it reaches the render
    call, or the error of the coercion. *)
Definition rendered (n : display_request) : outcome payload :=
  match stringData (dr_data n) with
  | Ok data => Ok (notification_of n data)
  | Throw e => Throw e
  end.

Definition showLocalNotification (n : display_request) : M unit :=
  try_catch
    (data <- lift (stringData (dr_data n)) ;;
     sdk (DisplayNotification (notification_of n data))
         (displayNotification E (notification_of n data)))
    (fun _ => ret tt).

(** *** [getFCMToken] *)

Definition nonempty (s : string) : bool :=
  match s with EmptyString => false | _ => true end.

Definition getFCMToken : M (option string) :=
  try_catch
    (token <- sdk GetToken (getToken E) ;;
     if nonempty token then
       modify (set_fcmToken (Some token)) ;;
       AsyncStorage_setItem "fcmToken" token ;;
       ret (Some token)
     else ret None)
    (fun _ => ret None).

(** *** The event emitter: [on], [off], [emit] *)

Definition has (event : string) (w : world) : bool :=
  bool_decide (is_Some (listeners w !! event)).

(** The array [this.listeners.get(event)], empty when there is none. *)
Definition registered (event : string) (w : world) : list fn_ref :=
  default [] (listeners w !! event).

Definition on (event : string) (callback : fn_ref) : M unit :=
  (if_absent <- gets (fun w => negb (has event w)) ;;
   if if_absent
   then modify (fun w => set_listeners (<[event := []]> (listeners w)) w)
   else ret tt) ;;
  modify (fun w =>
    set_listeners (<[event := registered event w ++ [callback]]> (listeners w)) w).

Fixpoint indexOf_from (i : Z) (l : list fn_ref) (x : fn_ref) : Z :=
  match l with
  | [] => (-1)%Z
  | y :: l' => if Nat.eqb y x then i else indexOf_from (i + 1)%Z l' x
  end.

(** [l.indexOf(x)]: the first index holding [x], or -1. *)
Definition indexOf (l : list fn_ref) (x : fn_ref) : Z := indexOf_from 0 l x.

(** [l.splice(index, 1)] for [index >= 0]. *)
Definition splice1 (l : list fn_ref) (index : Z) : list fn_ref :=
  take (Z.to_nat index) l ++ drop (S (Z.to_nat index)) l.

Definition off (event : string) (callback : fn_ref) : M unit :=
  present <- gets (has event) ;;
  if present then
    callbacks <- gets (registered event) ;;
    let index := indexOf callbacks callback in
    if (index >? -1)%Z then
      modify (fun w =>
        set_listeners (<[event := splice1 callbacks index]> (listeners w)) w)
    else ret tt
  else ret tt.

Definition registry_op (c : registry_call) : M unit :=
  match c with
  | CallOn event callback => on event callback
  | CallOff event callback => off event callback
  end.

(** The calls of [on] and [off] a listener made, applied in order. *)
Definition apply_registry_calls (cs : list registry_call) (w : world) : world :=
  fold_left (fun w c => snd (registry_op c w)) cs w.

(** [callback(data)]: the closure runs on the application state and on
    the registry, then returns or throws. *)
Definition invoke (callback : fn_ref) (data : JS.value) : M unit :=
  fun w =>
    let r := closures callback data (app w) in
    (fst (fst r),
     apply_registry_calls (snd r)
       (set_app (snd (fst r)) (record (Listener callback data) w))).

(** [this.listeners.get(event)!.forEach(f)] from index [k]: the number
    of rounds is the length of the array when the loop started; each
    round reads the array as it is then, and skips an index the array
    no longer has. *)
Fixpoint forEach_from (event : string) (f : fn_ref -> M unit) (k rounds : nat)
    : M unit :=
  match rounds with
  | 0 => ret tt
  | S rounds' =>
      callbacks <- gets (registered event) ;;
      match callbacks !! k with
      | Some callback => f callback
      | None => ret tt
      end ;;
      forEach_from event f (S k) rounds'
  end.

Definition forEach (event : string) (f : fn_ref -> M unit) : M unit :=
  callbacks <- gets (registered event) ;;
  forEach_from event f 0 (length callbacks).

(** The callback of the loop of [emit]:
    [try { callback(data) } catch (error) { ... }]. *)
Definition call_listener (data : JS.value) (callback : fn_ref) : M unit :=
  try_catch (invoke callback data) (fun _ => ret tt).

Definition emit (event : string) (data : JS.value) : M unit :=
  modify (record (Emit event data)) ;;
  present <- gets (has event) ;;
  if present then forEach event (call_listener data) else ret tt.

(** *** The message handlers *)

Definition of_optional (o : option string) : JS.value :=
  match o with Some s => JS.VStr s | None => JS.VUndef end.

(** [remoteMessage.notification?.title] and [?.body]. *)
Definition notification_title (m : remote_message) : JS.value :=
  match rm_notification m with
  | Some n => of_optional (mn_title n)
  | None => JS.VUndef
  end.

Definition notification_body (m : remote_message) : JS.value :=
  match rm_notification m with
  | Some n => of_optional (mn_body n)
  | None => JS.VUndef
  end.

Definition default_title : JS.value := JS.VStr "🚖 New Ride Request".
Definition default_body : JS.value := JS.VStr "Tap to view ride details".

(** [x?.type === 'ride_request']. *)
Definition is_ride_request (data : JS.value) : bool :=
  JS.is_string_lit (JS.get data "type") "ride_request".

(** The object literal the foreground handler passes to
    [showLocalNotification]. *)
Definition foreground_request (m : remote_message) : display_request :=
  {| dr_title := JS.or_else (notification_title m) default_title;
     dr_body := JS.or_else (notification_body m) default_body;
     dr_data := rm_data m |}.

(** The closure given to [messaging().onMessage]. *)
Definition foregroundHandler (m : remote_message) : M unit :=
  showLocalNotification (foreground_request m) ;;
  if is_ride_request (rm_data m)
  then emit "rideRequest" (rm_data m)
  else ret tt.

Definition setupForegroundHandler : M unit :=
  try_catch (sdk OnMessage (onMessage E)) (fun _ => ret tt).

(** The object literal the background handler passes to
    [showLocalNotification]. *)
Definition background_request (m : remote_message) : display_request :=
  {| dr_title := JS.or_else (JS.get (rm_data m) "title") default_title;
     dr_body := JS.or_else (JS.get (rm_data m) "body") default_body;
     dr_data := rm_data m |}.

(** The closure given to [messaging().setBackgroundMessageHandler].
    [JSON.stringify] gives a string here: a value with a [type]
    property is an object, see [ride_request_stringifies]. *)
Definition backgroundHandler (m : remote_message) : M unit :=
  showLocalNotification (background_request m) ;;
  (if is_ride_request (rm_data m) then
     match JS.json_stringify (rm_data m) with
     | Some json => AsyncStorage_setItem "pendingRideRequest" json
     | None => throw (Error "value is not a string")
     end
   else ret tt) ;;
  ret tt.

Definition setupBackgroundHandler : M unit :=
  try_catch
    (sdk SetBackgroundMessageHandler (setBackgroundMessageHandler E))
    (fun _ => ret tt).

(** *** Token refresh *)

Definition update_fcm_token_body (newToken : string) : string :=
  JS.json_object
    [("driverId", JS.VStr "YOUR_DRIVER_ID");
     ("fcmToken", JS.VStr newToken);
     ("platform", JS.VStr (os_name (platform_OS E)))].

(** The closure given to [messaging().onTokenRefresh]. *)
Definition tokenRefreshHandler (newToken : string) : M unit :=
  try_catch
    (authToken <- AsyncStorage_getItem "authToken" ;;
     match authToken with
     | Some auth =>
         if nonempty auth then
           let url := API_BASE +:+ "/drivers/update-fcm-token" in
           let authorization := "Bearer " +:+ auth in
           let body := update_fcm_token_body newToken in
           _ <- sdk (Fetch url authorization body) (fetch E url authorization body) ;;
           ret tt
         else ret tt
     | None => ret tt
     end)
    (fun _ => ret tt) ;;
  emit "tokenRefresh" (JS.VStr newToken).

Definition setupTokenRefreshHandler : M unit :=
  try_catch (sdk OnTokenRefresh (onTokenRefresh E)) (fun _ => ret tt).

(** *** [initializeNotifications] *)

Definition enabled (authStatus : AuthorizationStatus) : bool :=
  status_eqb authStatus AUTHORIZED || status_eqb authStatus PROVISIONAL.

Definition initializeNotifications : M bool :=
  try_catch
    (authStatus <- sdk RequestPermission (requestPermission E) ;;
     if negb (enabled authStatus) then ret false
     else
       createNotificationChannel ;;
       _ <- getFCMToken ;;
       setupForegroundHandler ;;
       not_awaited setupBackgroundHandler ;;
       setupTokenRefreshHandler ;;
       modify (set_notificationInitialized true) ;;
       ret true)
    (fun _ => ret false).

(** *** [checkPendingNotifications] *)

(** [setTimeout(callback, delay)]. *)
Definition setTimeout (callback : task) (delay : Z) : M unit :=
  modify (fun w => set_timers (timers w ++ [(delay, callback)]) w).

(** What a timer's callback does once the delay has elapsed. *)
Definition run_task (t : task) : M unit :=
  match t with EmitLater event data => emit event data end.

Definition checkPendingNotifications : M unit :=
  try_catch
    (initialNotification <- sdk GetInitialNotification (getInitialNotification E) ;;
     match initialNotification with
     | Some initial =>
         if is_ride_request (nn_data (in_notification initial)) then
           setTimeout
             (EmitLater "rideRequest" (nn_data (in_notification initial)))
             3000
         else ret tt
     | None => ret tt
     end ;;
     sdk OnForegroundEvent (onForegroundEvent E))
    (fun _ => ret tt).

(** The closure given to [notifee.onForegroundEvent]; [pressed] is
    [type === 'press'], [notification] is [detail.notification]. *)
Definition foregroundEventHandler (pressed : bool)
    (notification : option notifee_notification) : M unit :=
  match pressed, notification with
  | true, Some n =>
      if is_ride_request (nn_data n)
      then emit "rideRequest" (nn_data n)
      else ret tt
  | _, _ => ret tt
  end.

Definition testNotification : M unit :=
  showLocalNotification
    {| dr_title := JS.VStr "🔊 Sound Test";
       dr_body := JS.VStr "This should work NOW without vibration errors!";
       dr_data := JS.VObj [("test", JS.VStr "true");
                           ("sound", JS.VStr "enabled");
                           ("type", JS.VStr "test_notification")] |}.

(** What the listeners [callbacks], called in order with [data], make
    of the application state (a listener that throws has still run). *)
Definition deliver (data : JS.value) (callbacks : list fn_ref) (a : A) : A :=
  fold_left (fun a callback => snd (fst (closures callback data a))) callbacks a.

(** The world after the calls [cs] were made and the application
    state became [a]. *)
Definition extend (cs : list call) (a : A) (w : world) : world :=
  {| listeners := listeners w; fcmToken := fcmToken w;
     notificationInitialized := notificationInitialized w;
     storage := storage w; timers := timers w; trace := trace w ++ cs;
     app := a |}.

(** The calls made between two worlds of one run. *)
Definition new_calls (w w' : world) : list call :=
  drop (length (trace w)) (trace w').

End Service.

Arguments listeners {A} w.
Arguments fcmToken {A} w.
Arguments notificationInitialized {A} w.
Arguments storage {A} w.
Arguments timers {A} w.
Arguments trace {A} w.
Arguments app {A} w.
Arguments new_calls {A} w w'.
Arguments extend {A} cs a w.
Arguments deliver {A} closures data callbacks a.
Arguments record {A} c w.
Arguments set_listeners {A} x w.
Arguments set_storage {A} x w.
Arguments set_fcmToken {A} x w.
Arguments set_timers {A} x w.
Arguments set_app {A} x w.
Arguments set_notificationInitialized {A} x w.
Arguments ret {A T} x.
Arguments bind {A T U} m k.
Arguments try_catch {A T} m h.
Arguments lift {A T} o.
Arguments apply_registry_calls {A} cs w.
Arguments invoke {A} closures callback data.
Arguments call_listener {A} closures data callback.
Arguments forEach_from {A} event f k rounds.
Arguments registered {A} event w.
Arguments has {A} event w.
Arguments on {A} event callback.
Arguments off {A} event callback.
Arguments emit {A} closures event data.
Arguments run_task {A} closures t.
Arguments showLocalNotification {A} E n.
Arguments getFCMToken {A} E.
Arguments foregroundHandler {A} closures E m.
Arguments backgroundHandler {A} E m.
Arguments tokenRefreshHandler {A} closures E newToken.
Arguments initializeNotifications {A} E.
Arguments checkPendingNotifications {A} E.

(** The listeners a trace shows as called, in order. *)
Definition invoked_listeners (cs : list call) : list fn_ref :=
  omap (fun c => match c with Listener f _ => Some f | _ => None end) cs.

(** The notifications a trace shows as handed to the renderer. *)
Definition displayed (cs : list call) : list payload :=
  omap (fun c => match c with DisplayNotification p => Some p | _ => None end) cs.

(** The render call of [showLocalNotification] for a request: none when
    the coercion threw. *)
Definition display_calls (n : display_request) : list call :=
  match rendered n with
  | Ok p => [DisplayNotification p]
  | Throw _ => []
  end.

(** The coercion loop as a map over the properties, left to right:
    each value becomes [String(value)], an own [__proto__] is left
    out, and the first [String] that throws ends it. *)
Fixpoint coerced_props (ps : JS.props_t) : outcome JS.props_t :=
  match ps with
  | [] => Ok []
  | (k, v) :: ps' =>
      match JS.js_String v with
      | Ok s =>
          match coerced_props ps' with
          | Ok rest =>
              if String.eqb k "__proto__" then Ok rest
              else Ok ((k, JS.VStr s) :: rest)
          | Throw e => Throw e
          end
      | Throw e => Throw e
      end
  end.

Section Listeners.

Variable A : Type.
Variable closures :
  fn_ref -> JS.value -> A -> outcome unit * A * list registry_call.

(** The listener [f], called with [data], never unregisters a listener
    of [event]. *)
Definition keeps_array (event : string) (data : JS.value) (f : fn_ref) : Prop :=
  forall a g, ~ In (CallOff event g) (snd (closures f data a)).

(** The listener [f], called with [data], calls neither [on] nor
    [off]. *)
Definition quiet (data : JS.value) (f : fn_ref) : Prop :=
  forall a, snd (closures f data a) = [].

End Listeners.

(** Two worlds that differ at most in the registry of listeners. *)
Definition only_registry_differs {A} (w w' : world A) : Prop :=
  trace w' = trace w /\ app w' = app w /\ fcmToken w' = fcmToken w
  /\ notificationInitialized w' = notificationInitialized w
  /\ storage w' = storage w /\ timers w' = timers w.

Arguments keeps_array {A} closures event data f.
Arguments quiet {A} closures data f.

(** ** Concrete environments and messages for the examples *)

(** Every collaborator succeeds; permission is granted. *)
Definition all_fine : env :=
  {| platform_OS := android;
     requestPermission := Ok AUTHORIZED;
     createChannel := fun _ => Ok tt;
     displayNotification := fun _ => Ok tt;
     getToken := Ok "token-1";
     setItem := fun _ _ => Ok tt;
     getItem := fun _ => Ok tt;
     fetch := fun _ _ _ => Ok true;
     onMessage := Ok tt;
     setBackgroundMessageHandler := Ok tt;
     onTokenRefresh := Ok tt;
     getInitialNotification := Ok None;
     onForegroundEvent := Ok tt |}.

(** The device storage refuses the write of the pending ride request. *)
Definition storage_full : env :=
  {| platform_OS := android;
     requestPermission := Ok AUTHORIZED;
     createChannel := fun _ => Ok tt;
     displayNotification := fun _ => Ok tt;
     getToken := Ok "token-1";
     setItem := fun _ _ => Throw (Error "database or disk is full");
     getItem := fun _ => Ok tt;
     fetch := fun _ _ _ => Ok true;
     onMessage := Ok tt;
     setBackgroundMessageHandler := Ok tt;
     onTokenRefresh := Ok tt;
     getInitialNotification := Ok None;
     onForegroundEvent := Ok tt |}.

(** The user refused the permission. *)
Definition permission_denied : env :=
  {| platform_OS := android;
     requestPermission := Ok DENIED;
     createChannel := fun _ => Ok tt;
     displayNotification := fun _ => Ok tt;
     getToken := Ok "token-1";
     setItem := fun _ _ => Ok tt;
     getItem := fun _ => Ok tt;
     fetch := fun _ _ _ => Ok true;
     onMessage := Ok tt;
     setBackgroundMessageHandler := Ok tt;
     onTokenRefresh := Ok tt;
     getInitialNotification := Ok None;
     onForegroundEvent := Ok tt |}.

(** Permission granted, but channel creation and token retrieval fail. *)
Definition downstream_failing : env :=
  {| platform_OS := android;
     requestPermission := Ok PROVISIONAL;
     createChannel := fun _ => Throw (Error "channel rejected");
     displayNotification := fun _ => Throw (Error "render failed");
     getToken := Throw (Error "SERVICE_NOT_AVAILABLE");
     setItem := fun _ _ => Throw (Error "database or disk is full");
     getItem := fun _ => Throw (Error "read failed");
     fetch := fun _ _ _ => Throw (Error "network");
     onMessage := Throw (Error "not linked");
     setBackgroundMessageHandler := Throw (Error "not linked");
     onTokenRefresh := Throw (Error "not linked");
     getInitialNotification := Throw (Error "not linked");
     onForegroundEvent := Throw (Error "not linked") |}.

Definition ride_42 : JS.value :=
  JS.VObj [("type", JS.VStr "ride_request"); ("rideId", JS.VStr "42")].

(** The application was opened from a ride-request notification. *)
Definition cold_start : env :=
  {| platform_OS := android;
     requestPermission := Ok AUTHORIZED;
     createChannel := fun _ => Ok tt;
     displayNotification := fun _ => Ok tt;
     getToken := Ok "token-1";
     setItem := fun _ _ => Ok tt;
     getItem := fun _ => Ok tt;
     fetch := fun _ _ _ => Ok true;
     onMessage := Ok tt;
     setBackgroundMessageHandler := Ok tt;
     onTokenRefresh := Ok tt;
     getInitialNotification :=
       Ok (Some {| in_notification := {| nn_data := ride_42 |} |});
     onForegroundEvent := Ok tt |}.

(** Listeners of a test application that counts the events it saw;
    listener 1 throws after counting. *)
Definition counting (f : fn_ref) (data : JS.value) (seen : nat)
    : outcome unit * nat * list registry_call :=
  (if Nat.eqb f 1 then Throw (Error "listener failed") else Ok tt, S seen, []).

(** The same application, but listener 1 unregisters itself from
    [rideRequest] before it throws. *)
Definition unsubscribing (f : fn_ref) (data : JS.value) (seen : nat)
    : outcome unit * nat * list registry_call :=
  if Nat.eqb f 1
  then (Throw (Error "listener failed"), S seen, [CallOff "rideRequest" 1])
  else (Ok tt, S seen, []).

Definition fresh : world nat :=
  {| listeners := ∅; fcmToken := None; notificationInitialized := false;
     storage := ∅; timers := []; trace := []; app := 0 |}.

(** The service holds and has persisted the token "old". *)
Definition with_old_token : world nat :=
  {| listeners := ∅; fcmToken := Some "old"; notificationInitialized := true;
     storage := {[ "fcmToken" := "old" ]}; timers := []; trace := []; app := 0 |}.

Definition ride_7 : remote_message :=
  {| rm_notification := None;
     rm_data := JS.VObj [("type", JS.VStr "ride_request"); ("rideId", JS.VStr "7")] |}.

(** A data-only ride request that carries its own title. *)
Definition ride_titled : remote_message :=
  {| rm_notification := None;
     rm_data := JS.VObj [("type", JS.VStr "ride_request");
                         ("title", JS.VStr "Airport pickup")] |}.

(** A ride request whose fare is a number. *)
Definition ride_with_fare : remote_message :=
  {| rm_notification := None;
     rm_data := JS.VObj [("type", JS.VStr "ride_request");
                         ("fare", JS.VNum {| JS.int_val := 120; JS.int_safe := eq_refl |})] |}.

(** A ride request whose pickup is an object with a [toString]
    property of its own, as [JSON.parse] can produce. *)
Definition ride_with_named_pickup : remote_message :=
  {| rm_notification := None;
     rm_data := JS.VObj [("type", JS.VStr "ride_request");
                         ("pickup", JS.VObj [("toString", JS.VStr "x")])] |}.

(** A message whose data has the empty string as title. *)
Definition empty_title : remote_message :=
  {| rm_notification := None;
     rm_data := JS.VObj [("type", JS.VStr "promo"); ("title", JS.VStr EmptyString)] |}.

(** A message with a notification part and no title in its data. *)
Definition promo : remote_message :=
  {| rm_notification :=
       Some {| mn_title := Some "Bonus week"; mn_body := Some "Earn more" |};
     rm_data := JS.VObj [("type", JS.VStr "promo")] |}.


Arguments foregroundEventHandler {A} closures pressed notification.
Arguments testNotification {A} E.

(** The same collaborators on an iPhone. *)
Definition on_ios : env :=
  {| platform_OS := ios;
     requestPermission := Ok AUTHORIZED;
     createChannel := fun _ => Ok tt;
     displayNotification := fun _ => Ok tt;
     getToken := Ok "token-1";
     setItem := fun _ _ => Ok tt;
     getItem := fun _ => Ok tt;
     fetch := fun _ _ _ => Ok true;
     onMessage := Ok tt;
     setBackgroundMessageHandler := Ok tt;
     onTokenRefresh := Ok tt;
     getInitialNotification := Ok None;
     onForegroundEvent := Ok tt |}.

(** The backend cannot be reached; everything else succeeds. *)
Definition offline : env :=
  {| platform_OS := android;
     requestPermission := Ok AUTHORIZED;
     createChannel := fun _ => Ok tt;
     displayNotification := fun _ => Ok tt;
     getToken := Ok "token-1";
     setItem := fun _ _ => Ok tt;
     getItem := fun _ => Ok tt;
     fetch := fun _ _ _ => Throw (Error "Network request failed");
     onMessage := Ok tt;
     setBackgroundMessageHandler := Ok tt;
     onTokenRefresh := Ok tt;
     getInitialNotification := Ok None;
     onForegroundEvent := Ok tt |}.

(** A driver is logged in: the storage holds an auth token; listener 2
    waits for token refreshes. *)
Definition logged_in : world nat :=
  {| listeners := {[ "tokenRefresh" := [2] ]}; fcmToken := Some "old";
     notificationInitialized := true;
     storage := {[ "authToken" := "jwt-1" ]}; timers := []; trace := []; app := 0 |}.

(** ** The login screen's input checks *)

Module Login.

(** The fragment of regular expressions the screen uses: a character
    range, a sequence, a fixed number of repetitions.  Nothing here
    offers a choice, so a pattern matches at most one prefix. *)
Inductive regex : Type :=
| Range (lo hi : ascii)
| Cat (r1 r2 : regex)
| Times (n : nat) (r : regex).

Definition in_range (lo hi c : ascii) : bool :=
  (N_of_ascii lo <=? N_of_ascii c)%N && (N_of_ascii c <=? N_of_ascii hi)%N.

(** What is left of [s] once [r] has matched a prefix of it. *)
Fixpoint match_prefix (r : regex) (s : string) : option string :=
  match r with
  | Range lo hi =>
      match s with
      | String c s' => if in_range lo hi c then Some s' else None
      | EmptyString => None
      end
  | Cat r1 r2 =>
      match match_prefix r1 s with
      | Some s' => match_prefix r2 s'
      | None => None
      end
  | Times n r =>
      Nat.iter n
        (fun rest => match rest with Some s' => match_prefix r s' | None => None end)
        (Some s)
  end.

(** [/^r$/.test(s)]: the pattern matches the whole of [s]. *)
Definition test_whole (r : regex) (s : string) : bool :=
  match match_prefix r s with
  | Some EmptyString => true
  | _ => false
  end.

(** [\d] and [[0-9]]. *)
Definition digit : regex := Range "0" "9".
Definition is_digit (c : ascii) : bool := in_range "0" "9" c.

(** [/^[6-9]\d{9}$/.test(phone)]. *)
Definition isValidPhoneNumber (phone : string) : bool :=
  test_whole (Cat (Range "6" "9") (Times 9 digit)) phone.

(** [text.replace(/[^0-9]/g, '')], what the two text inputs keep of
    the typed text. *)
Fixpoint keep_digits (text : string) : string :=
  match text with
  | EmptyString => EmptyString
  | String c text' =>
      if is_digit c then String c (keep_digits text') else keep_digits text'
  end.

Fixpoint all_digits (s : string) : bool :=
  match s with
  | EmptyString => true
  | String c s' => is_digit c && all_digits s'
  end.

End Login.

(** * Properties *)

(** ** JavaScript values *)

Example json_ride_request :
  JS.json_stringify (rm_data ride_7)
  = Some (JS.json_object [("type", JS.VStr "ride_request"); ("rideId", JS.VStr "7")]).
Proof. reflexivity. Qed.

Example String_coercions :
  map JS.js_String
    [JS.VBool true;
     JS.VNum {| JS.int_val := 42; JS.int_safe := eq_refl |};
     JS.VNum {| JS.int_val := -3; JS.int_safe := eq_refl |};
     JS.VNum {| JS.int_val := 9007199254740991; JS.int_safe := eq_refl |};
     JS.VNull; JS.VUndef; JS.VStr "x"; JS.VObj [("a", JS.VBool true)];
     JS.VObj [("toString", JS.VStr "x")]]
  = [Ok "true"; Ok "42"; Ok "-3"; Ok "9007199254740991"; Ok "null";
     Ok "undefined"; Ok "x"; Ok "[object Object]";
     Throw (Error "TypeError: Cannot convert object to primitive value")].
Proof. reflexivity. Qed.

(** [String] throws for an object with a [toString] property of its
    own, and for nothing else. *)
Lemma js_String_throws v e :
  JS.js_String v = Throw e <->
  e = Error "TypeError: Cannot convert object to primitive value"
  /\ exists ps x, v = JS.VObj ps /\ JS.assoc ps "toString" = Some x.
Proof.
  split.
  - destruct v as [| | [|] | n | s | ps]; simpl; try discriminate.
    destruct (JS.assoc ps "toString") as [x|] eqn:Hx; [|discriminate].
    intros H. inversion H. split; [reflexivity|]. eauto.
  - intros (-> & ps & x & -> & Hx). simpl. now rewrite Hx.
Qed.

Lemma is_string_lit_spec v lit :
  JS.is_string_lit v lit = true <-> v = JS.VStr lit.
Proof.
  destruct v; simpl; try (split; [discriminate | intros H; inversion H]).
  rewrite String.eqb_eq. split; [congruence | intros H; now inversion H].
Qed.

Lemma json_stringify_object ps :
  JS.json_stringify (JS.VObj ps) = Some (JS.json_object ps).
Proof. reflexivity. Qed.

(** An index is never the key [type]: a string has no [type] property. *)
Lemma index_is_not_type n : String.eqb (JS.string_of_nat n) "type" = false.
Proof.
  unfold JS.string_of_nat. destruct (Nat.to_uint n); reflexivity.
Qed.

Lemma indexed_chars_no_type i s : JS.assoc (JS.indexed_chars i s) "type" = None.
Proof.
  revert i. induction s as [|c s IH]; intros i; simpl; [reflexivity|].
  rewrite index_is_not_type. apply IH.
Qed.

Lemma is_ride_request_spec data :
  is_ride_request data = true <-> JS.get data "type" = JS.VStr "ride_request".
Proof. apply is_string_lit_spec. Qed.

(** Only an object has [type === 'ride_request']; [JSON.stringify]
    gives a string for it. *)
Lemma ride_request_stringifies data :
  is_ride_request data = true ->
  exists ps, data = JS.VObj ps /\ JS.json_stringify data = Some (JS.json_object ps).
Proof.
  intros H. apply is_ride_request_spec in H. unfold JS.get in H.
  destruct data as [| | b | n | s | ps]; simpl in H; try discriminate.
  - rewrite indexed_chars_no_type in H. discriminate.
  - exists ps. split; [reflexivity | apply json_stringify_object].
Qed.

Lemma assoc_set_eq ps k v : JS.assoc (JS.set ps k v) k = Some v.
Proof.
  induction ps as [|[k' v'] ps IH]; simpl.
  - now rewrite String.eqb_refl.
  - destruct (String.eqb k' k) eqn:Hk; simpl; rewrite Hk; [reflexivity | apply IH].
Qed.

Lemma assoc_set_ne ps k v k' :
  k <> k' -> JS.assoc (JS.set ps k v) k' = JS.assoc ps k'.
Proof.
  intros Hne. induction ps as [|[k0 v0] ps IH]; simpl.
  - destruct (String.eqb k k') eqn:Hk; [apply String.eqb_eq in Hk; contradiction | reflexivity].
  - destruct (String.eqb k0 k) eqn:Hk; simpl.
    + apply String.eqb_eq in Hk. subst k0.
      destruct (String.eqb k k') eqn:Hk'; [apply String.eqb_eq in Hk'; contradiction | reflexivity].
    + destruct (String.eqb k0 k'); [reflexivity | apply IH].
Qed.

Lemma set_fresh ps k v :
  k ∉ map fst ps -> JS.set ps k v = ps ++ [(k, v)].
Proof.
  induction ps as [|[k' v'] ps IH]; simpl; intros Hk; [reflexivity|].
  destruct (String.eqb k' k) eqn:Heq.
  - apply String.eqb_eq in Heq. subst k'. exfalso. apply Hk. now left.
  - rewrite IH; [reflexivity|]. intros Hin. apply Hk. now right.
Qed.

Lemma assoc_app_fresh ps qs k :
  k ∉ map fst ps -> JS.assoc (ps ++ qs) k = JS.assoc qs k.
Proof.
  induction ps as [|[k' v'] ps IH]; simpl; intros Hk; [reflexivity|].
  destruct (String.eqb k' k) eqn:Heq.
  - apply String.eqb_eq in Heq. subst k'. exfalso. apply Hk. now left.
  - apply IH. intros Hin. apply Hk. now right.
Qed.

Lemma set_all_strings ps k v :
  JS.is_str v = true ->
  Forall (fun kv => JS.is_str (snd kv) = true) ps ->
  Forall (fun kv => JS.is_str (snd kv) = true) (JS.set ps k v).
Proof.
  intros Hv. induction 1 as [|[k' v'] ps Hx Hps IH]; simpl.
  - repeat constructor. exact Hv.
  - destruct (String.eqb k' k); constructor; auto.
Qed.

(** ** The string coercion of [showLocalNotification] *)

Section Coercion.

Variable data : JS.value.

Lemma coerce_keys_strings ks acc sd :
  Forall (fun kv => JS.is_str (snd kv) = true) acc ->
  coerce_keys data ks acc = Ok sd ->
  Forall (fun kv => JS.is_str (snd kv) = true) sd.
Proof.
  revert acc. induction ks as [|k ks IH]; intros acc Hacc; simpl.
  - intros H. inversion H. now subst.
  - unfold coerce_key.
    destruct (JS.js_String (JS.get data k)) as [s|e]; [|discriminate].
    destruct (String.eqb k "__proto__"); apply IH; [exact Hacc|].
    apply set_all_strings; [reflexivity | exact Hacc].
Qed.

(** The loop ends normally exactly when [String] succeeds on the
    value of every key. *)
Lemma coerce_keys_ok_each ks acc sd :
  coerce_keys data ks acc = Ok sd ->
  forall k, In k ks -> exists s, JS.js_String (JS.get data k) = Ok s.
Proof.
  revert acc. induction ks as [|k0 ks IH]; intros acc Hrun k Hin; [destruct Hin|].
  simpl in Hrun. unfold coerce_key in Hrun.
  destruct (JS.js_String (JS.get data k0)) as [s0|e] eqn:Hs0; [|discriminate].
  destruct Hin as [<-|Hin]; [eauto|].
  destruct (String.eqb k0 "__proto__"); eapply IH; eauto.
Qed.

Lemma coerce_keys_total ks acc :
  (forall k, In k ks -> exists s, JS.js_String (JS.get data k) = Ok s) ->
  exists sd, coerce_keys data ks acc = Ok sd.
Proof.
  revert acc. induction ks as [|k0 ks IH]; intros acc Hall; simpl; [eauto|].
  destruct (Hall k0 (or_introl eq_refl)) as [s0 Hs0].
  unfold coerce_key. rewrite Hs0.
  destruct (String.eqb k0 "__proto__"); apply IH; intros k Hk; apply Hall; now right.
Qed.

Lemma coerce_keys_assoc_out ks acc sd k :
  coerce_keys data ks acc = Ok sd ->
  ~ In k ks \/ k = "__proto__" ->
  JS.assoc sd k = JS.assoc acc k.
Proof.
  revert acc. induction ks as [|k0 ks IH]; intros acc Hrun Hk; simpl in Hrun.
  - inversion Hrun. now subst.
  - unfold coerce_key in Hrun.
    destruct (JS.js_String (JS.get data k0)) as [s0|e]; [|discriminate].
    assert (Htail : ~ In k ks \/ k = "__proto__").
    { destruct Hk as [Hk|Hk]; [left|now right]. intros Hin. apply Hk. now right. }
    destruct (String.eqb k0 "__proto__") eqn:Hproto.
    + now apply IH.
    + rewrite (IH _ Hrun Htail). apply assoc_set_ne.
      intros ->. destruct Hk as [Hk|Hk].
      * apply Hk. now left.
      * subst k. now rewrite String.eqb_refl in Hproto.
Qed.

Lemma coerce_keys_assoc_in ks acc sd k s :
  coerce_keys data ks acc = Ok sd ->
  In k ks -> k <> "__proto__" ->
  JS.js_String (JS.get data k) = Ok s ->
  JS.assoc sd k = Some (JS.VStr s).
Proof.
  revert acc. induction ks as [|k0 ks IH]; intros acc Hrun Hin Hproto Hs;
    [destruct Hin|].
  simpl in Hrun. unfold coerce_key in Hrun.
  destruct (JS.js_String (JS.get data k0)) as [s0|e] eqn:Hs0; [|discriminate].
  destruct (in_dec string_dec k ks) as [Hlater|Hlast].
  - destruct (String.eqb k0 "__proto__"); eapply IH; eauto.
  - destruct Hin as [->|Hin]; [|contradiction].
    rewrite Hs in Hs0. inversion Hs0; subst s0.
    destruct (String.eqb k "__proto__") eqn:Hp.
    + apply String.eqb_eq in Hp. contradiction.
    + rewrite (coerce_keys_assoc_out _ _ _ k Hrun (or_introl Hlast)).
      apply assoc_set_eq.
Qed.

(** On data whose keys are distinct (every object), the loop is the
    map [coerced_props] over the properties. *)
Lemma coerce_keys_map done todo acc :
  JS.own_props data = done ++ todo ->
  NoDup (JS.keys data) ->
  (forall k, In k (map fst acc) -> In k (map fst done)) ->
  coerce_keys data (map fst todo) acc
  = match coerced_props todo with
    | Ok rest => Ok (acc ++ rest)
    | Throw e => Throw e
    end.
Proof.
  intros Hsplit Hnodup. revert done acc Hsplit.
  induction todo as [|[k v] todo IH]; intros done acc Hsplit Hacc; simpl.
  - now rewrite app_nil_r.
  - assert (Hfresh : ~ In k (map fst done)).
    { unfold JS.keys in Hnodup. rewrite Hsplit, map_app in Hnodup.
      apply NoDup_app in Hnodup as (_ & Hdisj & _).
      intros Hin. apply (Hdisj k); [now apply list_elem_of_In | now left]. }
    assert (Hget : JS.get data k = v).
    { unfold JS.get. rewrite Hsplit, assoc_app_fresh.
      - simpl. now rewrite String.eqb_refl.
      - intros Hin. apply Hfresh. now apply list_elem_of_In. }
    unfold coerce_key. rewrite Hget.
    destruct (JS.js_String v) as [s|e]; [|reflexivity].
    assert (Hsplit' : JS.own_props data = (done ++ [(k, v)]) ++ todo)
      by now rewrite <- app_assoc.
    destruct (String.eqb k "__proto__").
    + rewrite (IH (done ++ [(k, v)]) acc Hsplit').
      * now destruct (coerced_props todo).
      * intros k' Hk'. rewrite map_app. apply in_or_app. left. now apply Hacc.
    + rewrite set_fresh.
      * rewrite (IH (done ++ [(k, v)]) (acc ++ [(k, JS.VStr s)]) Hsplit').
        -- destruct (coerced_props todo); [|reflexivity].
           now rewrite <- app_assoc.
        -- intros k' Hk'. rewrite map_app in *. apply in_app_or in Hk'.
           apply in_or_app. destruct Hk' as [Hk'|Hk']; [left; now apply Hacc|].
           right. exact Hk'.
      * intros Hin. apply Hfresh, Hacc. now apply list_elem_of_In.
Qed.

Lemma stringData_map :
  JS.truthy data = true -> NoDup (JS.keys data) ->
  stringData data = coerced_props (JS.own_props data).
Proof.
  intros Ht Hnodup. unfold stringData. rewrite Ht. unfold JS.keys.
  rewrite (coerce_keys_map [] (JS.own_props data) []); [|reflexivity|exact Hnodup|].
  - now destruct (coerced_props (JS.own_props data)).
  - intros k [].
Qed.

End Coercion.

(** ** Traces *)

Lemma new_calls_extend {A} cs a (w : world A) : new_calls w (extend cs a w) = cs.
Proof. unfold new_calls. simpl. apply drop_app_length. Qed.

Lemma new_calls_record {A} c (w : world A) : new_calls w (record c w) = [c].
Proof. unfold new_calls. simpl. apply drop_app_length. Qed.

Lemma new_calls_same {A} (w : world A) : new_calls w w = [].
Proof. unfold new_calls. apply drop_all. Qed.

Lemma new_calls_app {A} (w w' : world A) cs :
  trace w' = trace w ++ cs -> new_calls w w' = cs.
Proof. intros H. unfold new_calls. rewrite H. apply drop_app_length. Qed.

Lemma extend_nil {A} (w : world A) : extend [] (app w) w = w.
Proof. destruct w. unfold extend. simpl. now rewrite app_nil_r. Qed.

Lemma extend_extend {A} cs1 a1 cs2 a2 (w : world A) :
  extend cs2 a2 (extend cs1 a1 w) = extend (cs1 ++ cs2) a2 w.
Proof. unfold extend. simpl. now rewrite app_assoc. Qed.

Lemma record_as_extend {A} c (w : world A) : record c w = extend [c] (app w) w.
Proof. reflexivity. Qed.

(** ** The display entry point *)

Section Display.

Variable A : Type.
Variable E : env.

(** The renderer is called once with what [rendered n] built, or not
    at all when the coercion threw; neither that error nor a failure
    of the render call leaves [showLocalNotification]. *)
Lemma showLocalNotification_spec n (w : world A) :
  showLocalNotification E n w = (Ok tt, extend (display_calls n) (app w) w).
Proof.
  unfold showLocalNotification, display_calls, rendered, try_catch, bind, lift,
    sdk, ret.
  destruct (stringData (dr_data n)) as [sd|e].
  - destruct (displayNotification E (notification_of n sd)) as [[]|e]; reflexivity.
  - now rewrite extend_nil.
Qed.

(** C3, as the code has it: [showLocalNotification] calls the renderer
    at most once, and exactly when [String] succeeds on every value of
    the request's data (it throws on an object with a [toString]
    property of its own; the error is swallowed).  The data of every
    payload handed to the renderer has only string values: under each
    key of the request's data, an own [__proto__] key apart, it holds
    [String] of the value found there, and it has no other key
    ([{test: true}] is rendered as [{test: "true"}]). *)
Theorem C3_rendered_data_is_strings n (w : world A) :
  new_calls w (snd (showLocalNotification E n w)) = display_calls n
  /\ (forall p, rendered n = Ok p ->
        Forall (fun kv => JS.is_str (snd kv) = true) (p_data p)
        /\ (forall k, JS.truthy (dr_data n) = true ->
              In k (JS.keys (dr_data n)) -> k <> "__proto__" ->
              exists s, JS.js_String (JS.get (dr_data n) k) = Ok s
                        /\ JS.assoc (p_data p) k = Some (JS.VStr s))
        /\ (forall k v, JS.assoc (p_data p) k = Some v ->
              JS.truthy (dr_data n) = true
              /\ In k (JS.keys (dr_data n))
              /\ exists s, JS.js_String (JS.get (dr_data n) k) = Ok s
                           /\ v = JS.VStr s))
  /\ ((exists p, rendered n = Ok p)
      <-> (JS.truthy (dr_data n) = true ->
           forall k, In k (JS.keys (dr_data n)) ->
                     exists s, JS.js_String (JS.get (dr_data n) k) = Ok s))
  /\ (forall title body,
        rendered {| dr_title := title; dr_body := body;
                    dr_data := JS.VObj [("test", JS.VBool true)] |}
        = Ok (notification_of
                {| dr_title := title; dr_body := body;
                   dr_data := JS.VObj [("test", JS.VBool true)] |}
                [("test", JS.VStr "true")])).
Proof.
  rewrite showLocalNotification_spec. cbn [snd].
  split; [apply new_calls_extend|]. split; [|split; [|reflexivity]].
  - intros p Hp. unfold rendered, stringData in Hp.
    destruct (JS.truthy (dr_data n)) eqn:Ht.
    + destruct (coerce_keys (dr_data n) (JS.keys (dr_data n)) []) as [sd|e] eqn:Hrun;
        [|discriminate].
      inversion Hp; subst p. cbn [p_data notification_of].
      split; [eapply coerce_keys_strings; [constructor | exact Hrun]|].
      split.
      * intros k _ Hin Hproto.
        destruct (coerce_keys_ok_each _ _ _ _ Hrun k Hin) as [s Hs].
        exists s. split; [exact Hs|].
        eapply coerce_keys_assoc_in; eauto.
      * intros k v Hv. split; [reflexivity|].
        destruct (in_dec string_dec k (JS.keys (dr_data n))) as [Hin|Hout].
        -- split; [exact Hin|].
           destruct (coerce_keys_ok_each _ _ _ _ Hrun k Hin) as [s Hs].
           exists s. split; [exact Hs|].
           destruct (string_dec k "__proto__") as [Hp'|Hp'].
           ++ rewrite (coerce_keys_assoc_out _ _ _ _ k Hrun (or_intror Hp')) in Hv.
              discriminate.
           ++ rewrite (coerce_keys_assoc_in _ _ _ _ k s Hrun Hin Hp' Hs) in Hv.
              now inversion Hv.
        -- rewrite (coerce_keys_assoc_out _ _ _ _ k Hrun (or_introl Hout)) in Hv.
           discriminate.
    + inversion Hp; subst p. cbn [p_data notification_of].
      split; [constructor|]. split; [discriminate|].
      intros k v Hv. discriminate.
  - unfold rendered, stringData. destruct (JS.truthy (dr_data n)).
    + split.
      * intros [p Hp] _ k Hin.
        destruct (coerce_keys (dr_data n) (JS.keys (dr_data n)) []) as [sd|e] eqn:Hrun;
          [|discriminate].
        eapply coerce_keys_ok_each; eauto.
      * intros Hall.
        destruct (coerce_keys_total (dr_data n) (JS.keys (dr_data n)) [] (Hall eq_refl))
          as [sd ->]. eauto.
    + split; [discriminate | eauto].
Qed.

End Display.

(** Numbers and nested objects are coerced alike; an own [__proto__]
    is left out; an object with its own [toString] stops the loop. *)
Example stringData_mixed :
  stringData
    (JS.VObj [("fare", JS.VNum {| JS.int_val := 120; JS.int_safe := eq_refl |});
              ("pickup", JS.VObj [("lat", JS.VBool true)]);
              ("__proto__", JS.VStr "x");
              ("vip", JS.VBool false); ("note", JS.VNull)])
  = Ok [("fare", JS.VStr "120"); ("pickup", JS.VStr "[object Object]");
        ("vip", JS.VStr "false"); ("note", JS.VStr "null")]
  /\ stringData (rm_data ride_with_named_pickup)
     = Throw (Error "TypeError: Cannot convert object to primitive value").
Proof. split; reflexivity. Qed.

(** C3 as stated fails: a nested object with a [toString] property of
    its own is not coerced, [String] throws on it, and the renderer is
    not called at all; an own [__proto__] entry of the data is left out
    of the payload. *)
Lemma C3_counterexample_nested_object_not_coerced :
  let n := background_request ride_with_named_pickup in
  JS.get (dr_data n) "pickup" = JS.VObj [("toString", JS.VStr "x")]
  /\ JS.js_String (JS.get (dr_data n) "pickup")
     = Throw (Error "TypeError: Cannot convert object to primitive value")
  /\ showLocalNotification all_fine n fresh = (Ok tt, fresh)
  /\ new_calls fresh (snd (showLocalNotification all_fine n fresh)) = []
  /\ (forall p, ~ In (DisplayNotification p)
                    (new_calls fresh (snd (showLocalNotification all_fine n fresh))))
  /\ exists p,
       rendered {| dr_title := JS.VStr "t"; dr_body := JS.VStr "b";
                   dr_data := JS.VObj [("__proto__", JS.VBool true);
                                       ("test", JS.VBool true)] |} = Ok p
       /\ p_data p = [("test", JS.VStr "true")].
Proof.
  repeat split; try reflexivity.
  - intros p [].
  - eexists. split; reflexivity.
Qed.

(** ** The event emitter *)

Lemma indexOf_from_spec l x i :
  (indexOf_from i l x = (-1)%Z /\ x ∉ l)
  \/ (exists l1 l2, l = l1 ++ x :: l2 /\ (x ∉ l1)
                    /\ indexOf_from i l x = (i + Z.of_nat (length l1))%Z).
Proof.
  revert i. induction l as [|y l IH]; intros i; simpl.
  - left. split; [reflexivity | apply not_elem_of_nil].
  - destruct (Nat.eqb y x) eqn:Hy.
    + apply Nat.eqb_eq in Hy. subst y. right. exists [], l. simpl.
      split; [reflexivity|]. split; [apply not_elem_of_nil | lia].
    + apply Nat.eqb_neq in Hy.
      destruct (IH (i + 1)%Z) as [[Hi Hx] | (l1 & l2 & Hl & Hx & Hi)].
      * left. split; [exact Hi|]. intros Hin.
        apply elem_of_cons in Hin as [Hin|Hin]; [congruence | contradiction].
      * right. exists (y :: l1), l2. subst l. simpl.
        split; [reflexivity|]. split; [|lia].
        intros Hin. apply elem_of_cons in Hin as [Hin|Hin]; [congruence | contradiction].
Qed.

Lemma indexOf_from_first (l1 l2 : list fn_ref) x i :
  ~ In x l1 ->
  indexOf_from i (l1 ++ x :: l2) x = (i + Z.of_nat (length l1))%Z.
Proof.
  revert i. induction l1 as [|y l1 IH]; intros i Hx; simpl.
  - rewrite Nat.eqb_refl. lia.
  - destruct (Nat.eqb y x) eqn:Hy.
    + apply Nat.eqb_eq in Hy. exfalso. apply Hx. now left.
    + rewrite IH; [lia|]. intros Hin. apply Hx. now right.
Qed.

Lemma indexOf_from_absent (l : list fn_ref) x i :
  ~ In x l -> indexOf_from i l x = (-1)%Z.
Proof.
  revert i. induction l as [|y l IH]; intros i Hx; simpl; [reflexivity|].
  destruct (Nat.eqb y x) eqn:Hy.
  - apply Nat.eqb_eq in Hy. exfalso. apply Hx. now left.
  - apply IH. intros Hin. apply Hx. now right.
Qed.

Lemma splice1_middle (l1 l2 : list fn_ref) x :
  splice1 (l1 ++ x :: l2) (Z.of_nat (length l1)) = l1 ++ l2.
Proof.
  unfold splice1. rewrite Nat2Z.id.
  rewrite take_app_length.
  change (S (length l1)) with (1 + length l1).
  rewrite Nat.add_comm, <- drop_drop, drop_app_length. reflexivity.
Qed.

Lemma count_occ_absent (l : list nat) (x : nat) :
  x ∉ l -> count_occ Nat.eq_dec l x = 0.
Proof.
  intros Hx. apply count_occ_not_In. intros Hin. apply Hx.
  now apply list_elem_of_In.
Qed.

Lemma invoked_listeners_map data (l : list fn_ref) :
  invoked_listeners (map (fun callback => Listener callback data) l) = l.
Proof.
  induction l as [|cb l IH]; [reflexivity|].
  change (cb :: invoked_listeners (map (fun callback => Listener callback data) l)
          = cb :: l).
  now rewrite IH.
Qed.

Lemma only_registry_differs_refl {A} (w : world A) : only_registry_differs w w.
Proof. repeat split. Qed.

Lemma only_registry_differs_trans {A} (w1 w2 w3 : world A) :
  only_registry_differs w1 w2 -> only_registry_differs w2 w3 ->
  only_registry_differs w1 w3.
Proof.
  intros (H1 & H2 & H3 & H4 & H5 & H6) (G1 & G2 & G3 & G4 & G5 & G6).
  repeat split; congruence.
Qed.

Section RegistryOps.

Variable A : Type.

Implicit Types w : world A.

Lemma registered_absent event w : has event w = false -> registered event w = [].
Proof.
  unfold has, registered. intros H. apply bool_decide_eq_false in H.
  destruct (listeners w !! event) eqn:Hl; [|reflexivity].
  exfalso. apply H. eauto.
Qed.

Lemma registered_present event w :
  has event w = true -> listeners w !! event = Some (registered event w).
Proof.
  unfold has, registered. intros H. apply bool_decide_eq_true in H.
  destruct H as [l Hl]. now rewrite Hl.
Qed.

Lemma registered_some_has event w x l :
  registered event w = x :: l -> has event w = true.
Proof.
  intros Hreg. destruct (has event w) eqn:Hhas; [reflexivity|].
  rewrite (registered_absent event w Hhas) in Hreg. discriminate.
Qed.

Lemma on_spec event callback w :
  on event callback w
  = (Ok tt,
     set_listeners (<[event := registered event w ++ [callback]]> (listeners w)) w).
Proof.
  unfold on, bind, modify, gets, ret.
  destruct (has event w) eqn:Hhas; simpl; [reflexivity|].
  rewrite (registered_absent _ _ Hhas).
  unfold registered, set_listeners. simpl.
  rewrite lookup_insert_eq. simpl. now rewrite insert_insert_eq.
Qed.

(** [on] appends: the array of an event is in registration order. *)
Lemma registered_on event callback w :
  registered event (snd (on event callback w)) = registered event w ++ [callback].
Proof.
  rewrite on_spec. unfold registered at 1. simpl. now rewrite lookup_insert_eq.
Qed.

Lemma registered_on_other event other callback w :
  event <> other ->
  registered other (snd (on event callback w)) = registered other w.
Proof.
  intros Hne. rewrite on_spec. unfold registered at 1. simpl.
  now rewrite lookup_insert_ne.
Qed.

Lemma registered_off_other event other callback w :
  event <> other ->
  registered other (snd (off event callback w)) = registered other w.
Proof.
  intros Hne. unfold off, bind, gets, modify, ret.
  destruct (has event w); [|reflexivity].
  destruct (indexOf (registered event w) callback >? -1)%Z; [|reflexivity].
  unfold registered at 1. simpl. now rewrite lookup_insert_ne.
Qed.

Lemma off_never_throws event callback w : fst (off event callback w) = Ok tt.
Proof.
  unfold off, bind, gets, modify, ret.
  destruct (has event w); [|reflexivity].
  destruct (indexOf (registered event w) callback >? -1)%Z; reflexivity.
Qed.

Lemma off_first_spec event callback w before after :
  registered event w = before ++ callback :: after ->
  ~ In callback before ->
  off event callback w
  = (Ok tt, set_listeners (<[event := before ++ after]> (listeners w)) w).
Proof.
  intros Hreg Hfirst. unfold off, bind, gets, modify, ret.
  assert (Hhas : has event w = true).
  { destruct before; simpl in Hreg; eapply registered_some_has; exact Hreg. }
  rewrite Hhas, Hreg. unfold indexOf.
  rewrite (indexOf_from_first _ _ _ _ Hfirst), Z.add_0_l.
  assert (Hgt : (Z.of_nat (length before) >? -1)%Z = true)
    by (apply Z.gtb_lt; lia).
  rewrite Hgt. now rewrite splice1_middle.
Qed.

Lemma on_frame event callback w : only_registry_differs w (snd (on event callback w)).
Proof. rewrite on_spec. repeat split. Qed.

Lemma off_frame event callback w : only_registry_differs w (snd (off event callback w)).
Proof.
  unfold off, bind, gets, modify, ret.
  destruct (has event w); [|repeat split].
  destruct (indexOf (registered event w) callback >? -1)%Z; repeat split.
Qed.

(** The calls a listener makes change the registry only. *)
Lemma apply_registry_calls_frame cs w :
  only_registry_differs w (apply_registry_calls cs w).
Proof.
  revert w. induction cs as [|c cs IH]; intros w; [apply only_registry_differs_refl|].
  cbn [apply_registry_calls fold_left].
  eapply only_registry_differs_trans; [|apply IH].
  destruct c; [apply on_frame | apply off_frame].
Qed.

(** Calls that unregister nothing from [event] leave its array as a
    prefix of what it becomes. *)
Lemma apply_registry_calls_keeps event cs w :
  (forall g, ~ In (CallOff event g) cs) ->
  exists ex, registered event (apply_registry_calls cs w) = registered event w ++ ex.
Proof.
  revert w. induction cs as [|c cs IH]; intros w Hkeeps.
  - exists []. now rewrite app_nil_r.
  - cbn [apply_registry_calls fold_left].
    destruct (IH (snd (registry_op A c w))) as [ex Hex].
    { intros g Hin. apply (Hkeeps g). now right. }
    fold (apply_registry_calls cs (snd (registry_op A c w))).
    rewrite Hex. destruct c as [e g|e g]; cbn [registry_op].
    + destruct (string_dec e event) as [->|Hne].
      * rewrite registered_on, <- app_assoc. eauto.
      * rewrite (registered_on_other e event g w Hne). eauto.
    + destruct (string_dec e event) as [->|Hne].
      * exfalso. apply (Hkeeps g). now left.
      * rewrite (registered_off_other e event g w Hne). eauto.
Qed.

End RegistryOps.

Section Emitter.

Variable A : Type.
Variable closures :
  fn_ref -> JS.value -> A -> outcome unit * A * list registry_call.

Implicit Types w : world A.

(** One round of the loop of [emit]: the listener runs, a throw is
    caught. *)
Lemma caught_spec data f w :
  call_listener closures data f w = (Ok tt, snd (invoke closures f data w)).
Proof.
  unfold call_listener, try_catch, invoke, ret. cbn [fst snd].
  destruct (fst (fst (closures f data (app w)))) as [[]|e]; reflexivity.
Qed.

Lemma invoke_frame data f w :
  trace (snd (invoke closures f data w)) = trace w ++ [Listener f data]
  /\ app (snd (invoke closures f data w)) = snd (fst (closures f data (app w)))
  /\ fcmToken (snd (invoke closures f data w)) = fcmToken w
  /\ notificationInitialized (snd (invoke closures f data w))
     = notificationInitialized w
  /\ storage (snd (invoke closures f data w)) = storage w
  /\ timers (snd (invoke closures f data w)) = timers w.
Proof.
  unfold invoke. cbn [snd].
  destruct (apply_registry_calls_frame A (snd (closures f data (app w)))
              (set_app (snd (fst (closures f data (app w))))
                 (record (Listener f data) w)))
    as (H1 & H2 & H3 & H4 & H5 & H6).
  rewrite H1, H2, H3, H4, H5, H6. repeat split.
Qed.

Lemma invoke_keeps event data f w :
  keeps_array closures event data f ->
  exists ex,
    registered event (snd (invoke closures f data w)) = registered event w ++ ex.
Proof.
  intros Hkeeps. unfold invoke. cbn [snd].
  destruct (apply_registry_calls_keeps A event (snd (closures f data (app w)))
              (set_app (snd (fst (closures f data (app w))))
                 (record (Listener f data) w)))
    as [ex Hex]; [intros g; apply Hkeeps|].
  exists ex. exact Hex.
Qed.

Lemma invoke_quiet data f w :
  quiet closures data f ->
  listeners (snd (invoke closures f data w)) = listeners w.
Proof. intros Hquiet. unfold invoke. cbn [snd]. now rewrite Hquiet. Qed.

Lemma forEach_from_step event data rounds k w :
  forEach_from event (call_listener closures data) k (S rounds) w
  = forEach_from event (call_listener closures data) (S k) rounds
      match registered event w !! k with
      | Some cb => snd (invoke closures cb data w)
      | None => w
      end.
Proof.
  cbn [forEach_from]. unfold bind, gets, ret.
  destruct (registered event w !! k) as [cb|]; [|reflexivity].
  now rewrite caught_spec.
Qed.

(** The loop of [emit], whatever the listeners do: it ends normally,
    calls listeners only, each with the data, at most one per round. *)
Lemma forEach_from_general event data rounds k w :
  exists fs,
    fst (forEach_from event (call_listener closures data) k rounds w) = Ok tt
    /\ trace (snd (forEach_from event (call_listener closures data) k rounds w))
       = trace w ++ map (fun f => Listener f data) fs
    /\ length fs <= rounds
    /\ fcmToken (snd (forEach_from event (call_listener closures data) k rounds w)) = fcmToken w
    /\ notificationInitialized (snd (forEach_from event (call_listener closures data) k rounds w))
       = notificationInitialized w
    /\ storage (snd (forEach_from event (call_listener closures data) k rounds w)) = storage w
    /\ timers (snd (forEach_from event (call_listener closures data) k rounds w)) = timers w.
Proof.
  revert k w. induction rounds as [|rounds IH]; intros k w.
  - exists []. simpl. rewrite app_nil_r. repeat split. lia.
  - rewrite forEach_from_step.
    destruct (registered event w !! k) as [cb|].
    + destruct (invoke_frame data cb w) as (Ht & _ & H3 & H4 & H5 & H6).
      destruct (IH (S k) (snd (invoke closures cb data w)))
        as (fs & Hok & Htr & Hlen & G3 & G4 & G5 & G6).
      exists (cb :: fs). rewrite Hok, Htr, Ht, G3, G4, G5, G6, <- app_assoc.
      repeat split; auto. simpl. lia.
    + destruct (IH (S k) w) as (fs & Hok & Htr & Hlen & G3 & G4 & G5 & G6).
      exists fs. repeat split; auto.
Qed.

(** The loop of [emit] when no listener of the array unregisters a
    listener of the event: every listener is called, in order. *)
Lemma forEach_from_keeps event data rounds k w l0 ex :
  registered event w = l0 ++ ex ->
  k + rounds = length l0 ->
  (forall f, In f l0 -> keeps_array closures event data f) ->
  trace (snd (forEach_from event (call_listener closures data) k rounds w))
    = trace w ++ map (fun f => Listener f data) (drop k l0)
  /\ app (snd (forEach_from event (call_listener closures data) k rounds w))
     = deliver closures data (drop k l0) (app w)
  /\ exists ex',
       registered event (snd (forEach_from event (call_listener closures data) k rounds w))
       = l0 ++ ex'.
Proof.
  revert k w ex. induction rounds as [|rounds IH]; intros k w ex Hreg Hlen Hkeeps.
  - rewrite Nat.add_0_r in Hlen. subst k. rewrite drop_all. simpl.
    rewrite app_nil_r. eauto.
  - rewrite forEach_from_step, Hreg.
    assert (Hk : k < length l0) by lia.
    destruct (lookup_lt_is_Some_2 l0 k Hk) as [cb Hcb].
    rewrite (lookup_app_l l0 ex k Hk), Hcb.
    assert (Hin : In cb l0).
    { apply list_elem_of_In. eapply list_elem_of_lookup_2. exact Hcb. }
    destruct (invoke_keeps event data cb w (Hkeeps cb Hin)) as [ex1 Hex1].
    destruct (invoke_frame data cb w) as (Ht & Ha & _).
    rewrite Hreg, <- app_assoc in Hex1.
    destruct (IH (S k) (snd (invoke closures cb data w)) (ex ++ ex1) Hex1)
      as (Htr & Happ & Hex'); [lia | exact Hkeeps |].
    rewrite Htr, Happ, Ht, Ha, <- app_assoc, (drop_S l0 cb k Hcb).
    repeat split. exact Hex'.
Qed.

Lemma forEach_from_quiet event data rounds k w :
  (forall f, In f (registered event w) -> quiet closures data f) ->
  listeners (snd (forEach_from event (call_listener closures data) k rounds w)) = listeners w.
Proof.
  revert k w. induction rounds as [|rounds IH]; intros k w Hquiet; [reflexivity|].
  rewrite forEach_from_step.
  destruct (registered event w !! k) as [cb|] eqn:Hcb.
  - assert (Hl : listeners (snd (invoke closures cb data w)) = listeners w).
    { apply invoke_quiet, Hquiet, list_elem_of_In.
      eapply list_elem_of_lookup_2. exact Hcb. }
    rewrite IH; [exact Hl|].
    unfold registered. rewrite Hl. exact Hquiet.
  - now apply IH.
Qed.

Lemma emit_unfold event data w :
  emit closures event data w
  = if has event w
    then forEach_from event (call_listener closures data) 0
           (length (registered event w)) (record (Emit event data) w)
    else (Ok tt, record (Emit event data) w).
Proof.
  unfold emit, forEach, bind, modify, gets, ret.
  change (has event (record (Emit event data) w)) with (has event w).
  destruct (has event w); reflexivity.
Qed.

(** What [emit] does, for arbitrary listeners and for listeners that
    leave the event's array, or the whole registry, alone. *)
Lemma emit_run event data w :
  exists fs,
    fst (emit closures event data w) = Ok tt
    /\ trace (snd (emit closures event data w))
       = trace w ++ Emit event data :: map (fun f => Listener f data) fs
    /\ length fs <= length (registered event w)
    /\ fcmToken (snd (emit closures event data w)) = fcmToken w
    /\ notificationInitialized (snd (emit closures event data w))
       = notificationInitialized w
    /\ storage (snd (emit closures event data w)) = storage w
    /\ timers (snd (emit closures event data w)) = timers w
    /\ ((forall f, In f (registered event w) -> keeps_array closures event data f) ->
        fs = registered event w
        /\ app (snd (emit closures event data w))
           = deliver closures data (registered event w) (app w)
        /\ exists ex,
             registered event (snd (emit closures event data w))
             = registered event w ++ ex)
    /\ ((forall f, In f (registered event w) -> quiet closures data f) ->
        listeners (snd (emit closures event data w)) = listeners w).
Proof.
  rewrite emit_unfold.
  destruct (has event w) eqn:Hhas.
  - set (w0 := record (Emit event data) w).
    destruct (forEach_from_general event data (length (registered event w)) 0 w0)
      as (fs & Hok & Htr & Hlen & H3 & H4 & H5 & H6).
    exists fs. rewrite Htr, H3, H4, H5, H6. cbn [trace w0 record].
    rewrite <- app_assoc.
    split; [exact Hok|]. split; [reflexivity|]. split; [exact Hlen|].
    do 4 (split; [reflexivity|]). split.
    + intros Hkeeps.
      destruct (forEach_from_keeps event data (length (registered event w)) 0 w0
                  (registered event w) [])
        as (Htr' & Happ & Hex); [now rewrite app_nil_r | reflexivity | exact Hkeeps |].
      rewrite drop_0 in Htr', Happ. split; [|split; [exact Happ | exact Hex]].
      rewrite Htr in Htr'. apply app_inv_head in Htr'.
      rewrite <- (invoked_listeners_map data fs), Htr'.
      apply invoked_listeners_map.
    + intros Hquiet.
      exact (forEach_from_quiet event data (length (registered event w)) 0 w0 Hquiet).
  - rewrite (registered_absent A event w Hhas). exists []. simpl.
    repeat split; auto. exists []. exact (registered_absent A event w Hhas).
Qed.

End Emitter.

Section EmitterClaims.

Variable A : Type.
Variable closures :
  fn_ref -> JS.value -> A -> outcome unit * A * list registry_call.

Implicit Types w : world A.

(** C7, as the code has it: [emit(event, data)] returns normally
    whatever the listeners do, and calls listeners only, each with
    [data], walking the event's live array for as many rounds as it had
    entries at the start.  When no listener of the event unregisters a
    listener of that event while the emit runs, it calls every listener
    registered for the event, once each, in the order [on] registered
    them (it appends); so a listener registered after one that throws
    is still called. *)
Theorem C7_emit_calls_every_listener_in_order event data w :
  let r := emit closures event data w in
  fst r = Ok tt
  /\ (exists fs,
        new_calls w (snd r)
        = Emit event data :: map (fun callback => Listener callback data) fs
        /\ length fs <= length (registered event w))
  /\ (forall callback,
        registered event (snd (on event callback w))
        = registered event w ++ [callback])
  /\ ((forall f, In f (registered event w) -> keeps_array closures event data f) ->
      new_calls w (snd r)
      = Emit event data
          :: map (fun callback => Listener callback data) (registered event w)
      /\ app (snd r) = deliver closures data (registered event w) (app w)
      /\ forall a b before between after e,
           registered event w = before ++ a :: between ++ b :: after ->
           fst (fst (closures a data (deliver closures data before (app w))))
           = Throw e ->
           In (Listener b data) (new_calls w (snd r))).
Proof.
  intros r. unfold r.
  destruct (emit_run A closures event data w)
    as (fs & Hok & Htr & Hlen & _ & _ & _ & _ & Hkeeps & _).
  split; [exact Hok|]. split.
  { exists fs. split; [now apply new_calls_app | exact Hlen]. }
  split; [intros callback; apply registered_on|].
  intros Hk. destruct (Hkeeps Hk) as (Hfs & Happ & _). subst fs.
  rewrite (new_calls_app _ _ _ Htr).
  split; [reflexivity|]. split; [exact Happ|].
  intros a b before between after e Hreg _. right.
  apply in_map_iff. exists b. split; [reflexivity|].
  rewrite Hreg. apply in_or_app. right. right.
  apply in_or_app. right. now left.
Qed.

(** C8, as the code has it: for a callback registered for the event,
    [off(event, cb)] takes away its first registration and keeps the
    other listeners in their order.  A following [emit(event, x)],
    during which no listener unregisters a listener of the event, calls
    exactly the remaining listeners in order: [cb] once less often than
    it was registered, hence not at all when it was registered once. *)
Theorem C8_off_removes_one_registration event cb x w before after :
  registered event w = before ++ cb :: after ->
  ~ In cb before ->
  (forall f, In f (before ++ after) -> keeps_array closures event x f) ->
  let w1 := snd (off event cb w) in
  let calls := new_calls w1 (snd (emit closures event x w1)) in
  fst (off event cb w) = Ok tt
  /\ registered event w1 = before ++ after
  /\ calls = Emit event x :: map (fun callback => Listener callback x) (before ++ after)
  /\ count_occ Nat.eq_dec (invoked_listeners calls) cb
     = pred (count_occ Nat.eq_dec (registered event w) cb)
  /\ (~ In cb after -> ~ In (Listener cb x) calls).
Proof.
  intros Hreg Hfirst Hkeeps w1 calls.
  assert (Hw1 : registered event w1 = before ++ after).
  { unfold w1. rewrite (off_first_spec A event cb w before after Hreg Hfirst).
    unfold registered. simpl. now rewrite lookup_insert_eq. }
  assert (Hcalls : calls
                   = Emit event x
                       :: map (fun callback => Listener callback x) (before ++ after)).
  { unfold calls.
    destruct (emit_run A closures event x w1)
      as (fs & _ & Htr & _ & _ & _ & _ & _ & Hk & _).
    destruct Hk as (Hfs & _); [rewrite Hw1; exact Hkeeps|].
    rewrite (new_calls_app _ _ _ Htr), Hfs, Hw1. reflexivity. }
  split; [apply off_never_throws|]. split; [exact Hw1|]. split; [exact Hcalls|].
  split.
  - rewrite Hcalls.
    change (invoked_listeners (Emit event x :: ?l)) with (invoked_listeners l).
    rewrite invoked_listeners_map, Hreg. unfold fn_ref in *.
    rewrite !count_occ_app. simpl.
    pose proof (proj1 (count_occ_not_In Nat.eq_dec before cb) Hfirst) as Hzero.
    destruct (Nat.eq_dec cb cb); [lia | congruence].
  - intros Hafter Hin. rewrite Hcalls in Hin.
    destruct Hin as [Hin|Hin]; [discriminate|].
    apply in_map_iff in Hin as (f & Hf & Hin). inversion Hf; subst f.
    apply in_app_or in Hin as [Hin|Hin]; contradiction.
Qed.

End EmitterClaims.

(** Every listener of the counting application leaves the registry
    alone. *)
Lemma counting_quiet data f : quiet counting data f.
Proof. intros a. reflexivity. Qed.

Lemma counting_keeps event data f : keeps_array counting event data f.
Proof. intros a g []. Qed.

(** Listener 1 throws; listener 2, registered after it, is still called
    and the application has seen the event twice. *)
Lemma C7_emit_isolates_listeners :
  let w := snd (on "rideRequest" 2 (snd (on "rideRequest" 1 fresh))) in
  let r := emit counting "rideRequest" ride_42 w in
  new_calls w (snd r)
  = Emit "rideRequest" ride_42
      :: map (fun callback => Listener callback ride_42) (registered "rideRequest" w)
  /\ app (snd r) = deliver counting ride_42 (registered "rideRequest" w) (app w)
  /\ forall a b before between after e,
       registered "rideRequest" w = before ++ a :: between ++ b :: after ->
       fst (fst (counting a ride_42 (deliver counting ride_42 before (app w))))
       = Throw e ->
       In (Listener b ride_42) (new_calls w (snd r)).
Proof.
  apply (C7_emit_calls_every_listener_in_order nat counting "rideRequest" ride_42).
  intros f _. apply counting_keeps.
Defined.

Example emit_isolates_listeners :
  let w := snd (on "rideRequest" 2 (snd (on "rideRequest" 1 fresh))) in
  let r := emit counting "rideRequest" ride_42 w in
  fst (fst (counting 1 ride_42 0)) = Throw (Error "listener failed")
  /\ fst r = Ok tt
  /\ new_calls w (snd r)
     = [Emit "rideRequest" ride_42; Listener 1 ride_42; Listener 2 ride_42]
  /\ app (snd r) = 2.
Proof. vm_compute. auto. Qed.

(** C7 as stated fails: listener 1 unregisters itself and throws; the
    array shrinks under the loop and listener 2, registered after it,
    is not called. *)
Lemma C7_counterexample_unsubscribing_listener :
  let w := snd (on "rideRequest" 2 (snd (on "rideRequest" 1 fresh))) in
  let r := emit unsubscribing "rideRequest" ride_42 w in
  registered "rideRequest" w = [1; 2]
  /\ fst (fst (unsubscribing 1 ride_42 0)) = Throw (Error "listener failed")
  /\ fst r = Ok tt
  /\ new_calls w (snd r) = [Emit "rideRequest" ride_42; Listener 1 ride_42]
  /\ ~ In (Listener 2 ride_42) (new_calls w (snd r))
  /\ registered "rideRequest" (snd r) = [2].
Proof.
  vm_compute. repeat split. intros [H|[H|[]]]; discriminate.
Qed.

(** C8 as stated fails: a callback registered twice is still called
    after one [off]. *)
Lemma C8_counterexample_registered_twice :
  let w := snd (on "rideRequest" 7 (snd (on "rideRequest" 7 fresh))) in
  let w1 := snd (off "rideRequest" 7 w) in
  registered "rideRequest" w = [7; 7]
  /\ registered "rideRequest" w1 = [7]
  /\ new_calls w1 (snd (emit counting "rideRequest" ride_42 w1))
     = [Emit "rideRequest" ride_42; Listener 7 ride_42].
Proof. vm_compute. auto. Qed.

Lemma C8_off_first_of_two_registrations :
  let w := snd (on "rideRequest" 7 (snd (on "rideRequest" 5
             (snd (on "rideRequest" 7 (snd (on "rideRequest" 5 fresh))))))) in
  let w1 := snd (off "rideRequest" 7 w) in
  let calls := new_calls w1 (snd (emit counting "rideRequest" ride_42 w1)) in
  fst (off "rideRequest" 7 w) = Ok tt
  /\ registered "rideRequest" w1 = [5] ++ [5; 7]
  /\ calls = Emit "rideRequest" ride_42
             :: map (fun callback => Listener callback ride_42) ([5] ++ [5; 7])
  /\ count_occ Nat.eq_dec (invoked_listeners calls) 7
     = pred (count_occ Nat.eq_dec (registered "rideRequest" w) 7)
  /\ (~ In 7 [5; 7] -> ~ In (Listener 7 ride_42) calls).
Proof.
  apply (C8_off_removes_one_registration nat counting "rideRequest" 7 ride_42 _
           [5] [5; 7]).
  - reflexivity.
  - intros [H|[]]. discriminate.
  - intros f _. apply counting_keeps.
Defined.

(** ** The message handlers *)

Lemma displayed_app cs1 cs2 : displayed (cs1 ++ cs2) = displayed cs1 ++ displayed cs2.
Proof. unfold displayed. apply omap_app. Qed.

Lemma displayed_listeners data fs :
  displayed (map (fun f => Listener f data) fs) = [].
Proof. induction fs as [|f fs IH]; [reflexivity | exact IH]. Qed.

Lemma displayed_display_calls n :
  displayed (display_calls n)
  = match stringData (dr_data n) with
    | Ok data => [notification_of n data]
    | Throw _ => []
    end.
Proof.
  unfold display_calls, rendered. now destruct (stringData (dr_data n)).
Qed.

Lemma no_emit_in_display_calls n event d : ~ In (Emit event d) (display_calls n).
Proof.
  unfold display_calls. destruct (rendered n); [intros [H|[]]; discriminate | intros []].
Qed.

Section Handlers.

Variable A : Type.
Variable closures :
  fn_ref -> JS.value -> A -> outcome unit * A * list registry_call.
Variable E : env.

Implicit Types (w : world A) (m : remote_message).

Lemma foregroundHandler_unfold m w :
  foregroundHandler closures E m w
  = (if is_ride_request (rm_data m)
     then emit closures "rideRequest" (rm_data m)
     else ret tt)
      (extend (display_calls (foreground_request m)) (app w) w).
Proof.
  unfold foregroundHandler, bind. now rewrite showLocalNotification_spec.
Qed.

(** A run of the foreground handler: the render call, if any, then for
    a ride request the emission and the listeners it reaches. *)
Lemma foregroundHandler_run m w :
  exists fs,
    fst (foregroundHandler closures E m w) = Ok tt
    /\ trace (snd (foregroundHandler closures E m w))
       = trace w ++ display_calls (foreground_request m)
         ++ (if is_ride_request (rm_data m)
             then Emit "rideRequest" (rm_data m)
                    :: map (fun f => Listener f (rm_data m)) fs
             else [])
    /\ fcmToken (snd (foregroundHandler closures E m w)) = fcmToken w
    /\ notificationInitialized (snd (foregroundHandler closures E m w))
       = notificationInitialized w
    /\ storage (snd (foregroundHandler closures E m w)) = storage w
    /\ timers (snd (foregroundHandler closures E m w)) = timers w
    /\ ((forall f, In f (registered "rideRequest" w) ->
                   keeps_array closures "rideRequest" (rm_data m) f) ->
        fs = registered "rideRequest" w)
    /\ ((forall f, In f (registered "rideRequest" w) ->
                   quiet closures (rm_data m) f) ->
        listeners (snd (foregroundHandler closures E m w)) = listeners w).
Proof.
  rewrite foregroundHandler_unfold.
  set (w1 := extend (display_calls (foreground_request m)) (app w) w).
  destruct (is_ride_request (rm_data m)).
  - destruct (emit_run A closures "rideRequest" (rm_data m) w1)
      as (fs & Hok & Htr & _ & H3 & H4 & H5 & H6 & Hkeeps & Hquiet).
    exists fs. rewrite Htr, H3, H4, H5, H6. cbn [w1 extend trace].
    rewrite <- app_assoc. repeat split; auto.
    intros Hk. now destruct (Hkeeps Hk).
  - exists (registered "rideRequest" w). unfold ret. cbn [fst snd w1 extend trace].
    rewrite app_nil_r. repeat split.
Qed.

(** C2: the foreground handler emits [rideRequest] exactly when the
    message's [data.type] is ["ride_request"], and then with the
    message's own data (not the coerced copy the renderer got); the
    listeners are called inside the handler's run, nothing is
    deferred to a timer. *)
Theorem C2_foreground_emits_iff_ride_request m w :
  let r := foregroundHandler closures E m w in
  fst r = Ok tt
  /\ (forall event d,
        In (Emit event d) (new_calls w (snd r))
        <-> JS.get (rm_data m) "type" = JS.VStr "ride_request"
            /\ event = "rideRequest" /\ d = rm_data m)
  /\ (JS.get (rm_data m) "type" = JS.VStr "ride_request" ->
      exists fs,
        new_calls w (snd r)
        = display_calls (foreground_request m)
          ++ Emit "rideRequest" (rm_data m)
             :: map (fun callback => Listener callback (rm_data m)) fs
        /\ ((forall f, In f (registered "rideRequest" w) ->
                       keeps_array closures "rideRequest" (rm_data m) f) ->
            fs = registered "rideRequest" w))
  /\ timers (snd r) = timers w.
Proof.
  intros r. unfold r.
  destruct (foregroundHandler_run m w)
    as (fs & Hok & Htr & _ & _ & _ & Htimers & Hkeeps & _).
  split; [exact Hok|]. rewrite (new_calls_app _ _ _ Htr).
  split; [|split; [|exact Htimers]].
  - intros event d. destruct (is_ride_request (rm_data m)) eqn:Hride.
    + apply is_ride_request_spec in Hride. split.
      * intros Hin. apply in_app_or in Hin as [Hin|[Hin|Hin]].
        -- now apply no_emit_in_display_calls in Hin.
        -- inversion Hin. auto.
        -- apply in_map_iff in Hin as (f & Hf & _). discriminate.
      * intros (_ & -> & ->). apply in_or_app. right. now left.
    + assert (Hno : JS.get (rm_data m) "type" <> JS.VStr "ride_request").
      { intros H. apply is_ride_request_spec in H. congruence. }
      rewrite app_nil_r. split.
      * intros Hin. now apply no_emit_in_display_calls in Hin.
      * intros (H & _). contradiction.
  - intros Htype. apply is_ride_request_spec in Htype. rewrite Htype.
    exists fs. split; [reflexivity | exact Hkeeps].
Qed.

Lemma backgroundHandler_spec m w :
  backgroundHandler E m w
  = let shown := extend (display_calls (background_request m)) (app w) w in
    if is_ride_request (rm_data m) then
      match JS.json_stringify (rm_data m) with
      | Some json =>
          match setItem E "pendingRideRequest" json with
          | Ok _ =>
              (Ok tt,
               set_storage (<["pendingRideRequest" := json]> (storage w))
                 (record (SetItem "pendingRideRequest" json) shown))
          | Throw e => (Throw e, record (SetItem "pendingRideRequest" json) shown)
          end
      | None => (Throw (Error "value is not a string"), shown)
      end
    else (Ok tt, shown).
Proof.
  unfold backgroundHandler, bind. rewrite showLocalNotification_spec. cbn zeta.
  destruct (is_ride_request (rm_data m)); [|reflexivity].
  destruct (JS.json_stringify (rm_data m)) as [json|]; [|reflexivity].
  unfold AsyncStorage_setItem, bind, sdk, modify.
  destruct (setItem E "pendingRideRequest" json) as [[]|e]; reflexivity.
Qed.

(** Whatever the render call answers, the background handler rejects
    only through the storage write of a ride request. *)
Lemma backgroundHandler_outcome m w :
  fst (backgroundHandler E m w)
  = if is_ride_request (rm_data m) then
      match JS.json_stringify (rm_data m) with
      | Some json => setItem E "pendingRideRequest" json
      | None => Throw (Error "value is not a string")
      end
    else Ok tt.
Proof.
  rewrite backgroundHandler_spec. cbn zeta.
  destruct (is_ride_request (rm_data m)); [|reflexivity].
  destruct (JS.json_stringify (rm_data m)) as [json|]; [|reflexivity].
  destruct (setItem E "pendingRideRequest" json) as [[]|e]; reflexivity.
Qed.

(** The calls of a run of the background handler. *)
Lemma backgroundHandler_calls m w :
  new_calls w (snd (backgroundHandler E m w))
  = display_calls (background_request m)
    ++ (if is_ride_request (rm_data m) then
          match JS.json_stringify (rm_data m) with
          | Some json => [SetItem "pendingRideRequest" json]
          | None => []
          end
        else []).
Proof.
  rewrite backgroundHandler_spec. cbn zeta.
  destruct (is_ride_request (rm_data m)).
  - destruct (JS.json_stringify (rm_data m)) as [json|].
    + destruct (setItem E "pendingRideRequest" json) as [[]|e]; cbn [snd];
        apply new_calls_app; simpl; now rewrite <- app_assoc.
    + cbn [snd]. rewrite app_nil_r. apply new_calls_extend.
  - cbn [snd]. rewrite app_nil_r. apply new_calls_extend.
Qed.

Lemma foreground_displayed m w :
  displayed (new_calls w (snd (foregroundHandler closures E m w)))
  = displayed (display_calls (foreground_request m)).
Proof.
  destruct (foregroundHandler_run m w) as (fs & _ & Htr & _).
  rewrite (new_calls_app _ _ _ Htr), displayed_app.
  destruct (is_ride_request (rm_data m)); [|apply app_nil_r].
  change (displayed (Emit "rideRequest" (rm_data m) :: ?l)) with (displayed l).
  rewrite displayed_listeners. apply app_nil_r.
Qed.

Lemma background_displayed m w :
  displayed (new_calls w (snd (backgroundHandler E m w)))
  = displayed (display_calls (background_request m)).
Proof.
  rewrite backgroundHandler_calls, displayed_app.
  destruct (is_ride_request (rm_data m)); [|apply app_nil_r].
  destruct (JS.json_stringify (rm_data m)); apply app_nil_r.
Qed.

(** C4, as the code has it: both handlers render through
    [showLocalNotification], with the coerced data of the message and
    the same default texts; the foreground handler takes title and
    body from the message's notification part, the background handler
    from the [title] and [body] entries of the data.  They hand the
    renderer the same notification exactly when the titles and the
    bodies so obtained, after the fallback to the default, are the
    same, or when nothing is rendered at all because [String] throws
    on the data. *)
Theorem C4_handlers_render_alike_iff_titles_agree m w :
  let shown_fg := displayed (new_calls w (snd (foregroundHandler closures E m w))) in
  let shown_bg := displayed (new_calls w (snd (backgroundHandler E m w))) in
  (forall p, In p shown_fg ->
     p_title p = JS.or_else (notification_title m) default_title
     /\ p_body p = JS.or_else (notification_body m) default_body
     /\ stringData (rm_data m) = Ok (p_data p))
  /\ (forall p, In p shown_bg ->
        p_title p = JS.or_else (JS.get (rm_data m) "title") default_title
        /\ p_body p = JS.or_else (JS.get (rm_data m) "body") default_body
        /\ stringData (rm_data m) = Ok (p_data p))
  /\ (length shown_fg = length shown_bg
      /\ (length shown_fg = 0 <-> exists e, stringData (rm_data m) = Throw e))
  /\ (shown_fg = shown_bg
      <-> (exists e, stringData (rm_data m) = Throw e)
          \/ (JS.or_else (notification_title m) default_title
              = JS.or_else (JS.get (rm_data m) "title") default_title
              /\ JS.or_else (notification_body m) default_body
                 = JS.or_else (JS.get (rm_data m) "body") default_body)).
Proof.
  intros shown_fg shown_bg. unfold shown_fg, shown_bg.
  rewrite foreground_displayed, background_displayed, !displayed_display_calls.
  cbn [dr_data foreground_request background_request].
  destruct (stringData (rm_data m)) as [sd|e].
  - split; [intros p [<-|[]]; repeat split|].
    split; [intros p [<-|[]]; repeat split|].
    split; [split; [reflexivity|]; split; [discriminate | intros [e He]; discriminate]|].
    split.
    + intros Heq. right. inversion Heq. split; reflexivity.
    + intros [[e He]|[Ht Hb]]; [discriminate|].
      unfold notification_of. cbn [dr_title dr_body foreground_request background_request].
      now rewrite Ht, Hb.
  - split; [intros p []|]. split; [intros p []|].
    split; [split; [reflexivity|]; split; eauto|].
    split; [eauto | reflexivity].
Qed.

(** C5, as the code has it: for a background message whose
    [data.type] is ["ride_request"] the handler hands the renderer,
    unless [String] throws on a value of the data, a notification whose
    title is [data.title], or the default title when the data has no
    (non-empty) title; then it writes the JSON text of the data under
    [pendingRideRequest]; the key holds that text once the write
    succeeds. *)
Theorem C5_background_ride_request m w :
  JS.get (rm_data m) "type" = JS.VStr "ride_request" ->
  exists json,
    JS.json_stringify (rm_data m) = Some json
    /\ new_calls w (snd (backgroundHandler E m w))
       = display_calls (background_request m)
         ++ [SetItem "pendingRideRequest" json]
    /\ (forall p, In (DisplayNotification p) (display_calls (background_request m)) ->
          p_title p = JS.or_else (JS.get (rm_data m) "title") default_title
          /\ (JS.truthy (JS.get (rm_data m) "title") = false ->
              p_title p = default_title))
    /\ ((exists p, display_calls (background_request m) = [DisplayNotification p])
        <-> exists data, stringData (rm_data m) = Ok data)
    /\ (setItem E "pendingRideRequest" json = Ok tt ->
        fst (backgroundHandler E m w) = Ok tt
        /\ storage (snd (backgroundHandler E m w)) !! "pendingRideRequest"
           = Some json).
Proof.
  intros Htype. apply is_ride_request_spec in Htype.
  destruct (ride_request_stringifies _ Htype) as (ps & Hdata & Hjson).
  exists (JS.json_object ps). split; [exact Hjson|].
  split; [now rewrite backgroundHandler_calls, Htype, Hjson|].
  split; [|split].
  - intros p Hp. unfold display_calls, rendered in Hp.
    cbn [dr_data background_request] in Hp.
    destruct (stringData (rm_data m)) as [sd|e]; [|destruct Hp].
    destruct Hp as [Hp|[]]. inversion Hp; subst p.
    cbn [p_title notification_of dr_title background_request].
    split; [reflexivity|]. intros Hfalsy. unfold JS.or_else. now rewrite Hfalsy.
  - unfold display_calls, rendered. cbn [dr_data background_request].
    destruct (stringData (rm_data m)) as [sd|e].
    + split; eauto.
    + split; [intros [p Hp]; discriminate | intros [sd Hsd]; discriminate].
  - intros Hwrite. rewrite backgroundHandler_spec. cbn zeta.
    rewrite Htype, Hjson, Hwrite. cbn [fst snd]. split; [reflexivity|].
    simpl. apply lookup_insert_eq.
Qed.

(** *** Token refresh *)

(** A run of the token-refresh callback: the read of the auth token,
    the call of the backend when a non-empty auth token was read, then
    the emission and the listeners it reaches. *)
Lemma tokenRefreshHandler_run newToken w :
  exists fs,
    fst (tokenRefreshHandler closures E newToken w) = Ok tt
    /\ trace (snd (tokenRefreshHandler closures E newToken w))
       = trace w ++ GetItem "authToken"
         :: match getItem E "authToken", storage w !! "authToken" with
            | Ok _, Some auth =>
                if nonempty auth
                then [Fetch (API_BASE +:+ "/drivers/update-fcm-token")
                            ("Bearer " +:+ auth)
                            (update_fcm_token_body E newToken)]
                else []
            | _, _ => []
            end
         ++ Emit "tokenRefresh" (JS.VStr newToken)
            :: map (fun f => Listener f (JS.VStr newToken)) fs
    /\ fcmToken (snd (tokenRefreshHandler closures E newToken w)) = fcmToken w
    /\ storage (snd (tokenRefreshHandler closures E newToken w)) = storage w
    /\ ((forall f, In f (registered "tokenRefresh" w) ->
                   keeps_array closures "tokenRefresh" (JS.VStr newToken) f) ->
        fs = registered "tokenRefresh" w).
Proof.
  set (url := API_BASE +:+ "/drivers/update-fcm-token").
  set (body := update_fcm_token_body E newToken).
  set (fetch_calls :=
         match getItem E "authToken", storage w !! "authToken" with
         | Ok _, Some auth =>
             if nonempty auth then [Fetch url ("Bearer " +:+ auth) body] else []
         | _, _ => []
         end).
  assert (Hremote :
    try_catch
      (bind (AsyncStorage_getItem A E "authToken") (fun authToken =>
         match authToken with
         | Some auth =>
             if nonempty auth then
               bind (sdk A (Fetch url ("Bearer " +:+ auth) body)
                       (fetch E url ("Bearer " +:+ auth) body))
                    (fun _ => ret tt)
             else ret tt
         | None => ret tt
         end))
      (fun _ => ret tt) w
    = (Ok tt, extend (GetItem "authToken" :: fetch_calls) (app w) w)).
  { unfold fetch_calls, try_catch, bind, AsyncStorage_getItem, bind, sdk, gets, ret.
    destruct (getItem E "authToken") as [[]|e]; cbn [fst snd]; [|reflexivity].
    change (storage (record (GetItem "authToken") w)) with (storage w).
    destruct (storage w !! "authToken") as [auth|]; [|reflexivity].
    destruct (nonempty auth); [|reflexivity].
    destruct (fetch E url ("Bearer " +:+ auth) body) as [ok|e];
      unfold record, extend; simpl; now rewrite <- app_assoc. }
  set (w1 := extend (GetItem "authToken" :: fetch_calls) (app w) w).
  assert (Hrun : tokenRefreshHandler closures E newToken w
                 = emit closures "tokenRefresh" (JS.VStr newToken) w1).
  { unfold tokenRefreshHandler. unfold bind at 1. fold url body.
    now rewrite Hremote. }
  rewrite Hrun.
  destruct (emit_run A closures "tokenRefresh" (JS.VStr newToken) w1)
    as (fs & Hok & Htr & _ & H3 & _ & H5 & _ & Hkeeps & _).
  exists fs. rewrite Htr, H3, H5. cbn [w1 extend trace].
  rewrite <- app_assoc. repeat split; auto.
  intros Hk. now destruct (Hkeeps Hk).
Qed.

(** It is [getFCMToken] that writes the cached and the persisted
    token. *)
Lemma getFCMToken_stores token w :
  getToken E = Ok token -> nonempty token = true ->
  setItem E "fcmToken" token = Ok tt ->
  fst (getFCMToken E w) = Ok (Some token)
  /\ fcmToken (snd (getFCMToken E w)) = Some token
  /\ storage (snd (getFCMToken E w)) !! "fcmToken" = Some token.
Proof.
  intros Htoken Hnonempty Hwrite.
  unfold getFCMToken, try_catch, bind, sdk, modify, AsyncStorage_setItem,
    bind, sdk, modify, ret.
  rewrite Htoken, Hnonempty. cbn [fst snd]. rewrite Hwrite. cbn [fst snd].
  repeat split. simpl. apply lookup_insert_eq.
Qed.

End Handlers.

(** ** Initialization and startup replay *)

Section Lifecycle.

Variable A : Type.
Variable closures :
  fn_ref -> JS.value -> A -> outcome unit * A * list registry_call.
Variable E : env.

Implicit Types w : world A.

(** The downstream steps of initialization keep their failures to
    themselves. *)
Lemma createNotificationChannel_resolves w :
  fst (createNotificationChannel A E w) = Ok tt.
Proof.
  unfold createNotificationChannel, try_catch, sdk, ret.
  destruct (platform_OS E); [|reflexivity].
  destruct (createChannel E high_priority_channel) as [[]|e]; reflexivity.
Qed.

Lemma getFCMToken_resolves w : exists token, fst (getFCMToken E w) = Ok token.
Proof.
  unfold getFCMToken, try_catch, bind, sdk, modify, AsyncStorage_setItem,
    bind, sdk, modify, ret.
  destruct (getToken E) as [token|e]; cbn [fst snd]; [|now exists None].
  destruct (nonempty token); cbn [fst snd]; [|now exists None].
  destruct (setItem E "fcmToken" token) as [[]|e]; cbn [fst snd];
    [now exists (Some token) | now exists None].
Qed.

Lemma setupForegroundHandler_resolves w :
  fst (setupForegroundHandler A E w) = Ok tt.
Proof.
  unfold setupForegroundHandler, try_catch, sdk, ret.
  destruct (onMessage E) as [[]|e]; reflexivity.
Qed.

Lemma setupTokenRefreshHandler_resolves w :
  fst (setupTokenRefreshHandler A E w) = Ok tt.
Proof.
  unfold setupTokenRefreshHandler, try_catch, sdk, ret.
  destruct (onTokenRefresh E) as [[]|e]; reflexivity.
Qed.

(** Sequencing after a step that resolved. *)
Lemma bind_resolved {T U} (step : M A T) (k : T -> M A U) w x :
  fst (step w) = Ok x -> bind step k w = k x (snd (step w)).
Proof. unfold bind. destruct (step w) as [[y|e] w']; simpl; congruence. Qed.

(** The outcome of initialization is decided by the permission
    request alone. *)
Lemma initializeNotifications_outcome w :
  fst (initializeNotifications E w)
  = match requestPermission E with
    | Ok authStatus => Ok (enabled authStatus)
    | Throw _ => Ok false
    end.
Proof.
  unfold initializeNotifications, try_catch.
  unfold bind at 1. unfold sdk at 1.
  destruct (requestPermission E) as [authStatus|e]; [|reflexivity].
  destruct (enabled authStatus); cbn [negb]; [|reflexivity].
  set (w0 := record RequestPermission w).
  rewrite (bind_resolved _ _ w0 tt (createNotificationChannel_resolves w0)).
  set (w1 := snd (createNotificationChannel A E w0)).
  destruct (getFCMToken_resolves w1) as [token Htoken].
  rewrite (bind_resolved _ _ w1 token Htoken).
  set (w2 := snd (getFCMToken E w1)).
  rewrite (bind_resolved _ _ w2 tt (setupForegroundHandler_resolves w2)).
  set (w3 := snd (setupForegroundHandler A E w2)).
  unfold bind at 1. unfold not_awaited at 1.
  set (w4 := snd (setupBackgroundHandler A E w3)).
  rewrite (bind_resolved _ _ w4 tt (setupTokenRefreshHandler_resolves w4)).
  reflexivity.
Qed.

(** C9: when the permission request reports a status that is neither
    authorized nor provisional, [initializeNotifications] returns
    false and does not throw; when it reports authorized or
    provisional, [initializeNotifications] returns true whatever
    channel creation, token retrieval and the handler registrations
    answer. *)
Theorem C9_initialize_follows_permission authStatus w :
  requestPermission E = Ok authStatus ->
  (authStatus <> AUTHORIZED -> authStatus <> PROVISIONAL ->
   fst (initializeNotifications E w) = Ok false)
  /\ (authStatus = AUTHORIZED \/ authStatus = PROVISIONAL ->
      fst (initializeNotifications E w) = Ok true).
Proof.
  intros Hperm. rewrite initializeNotifications_outcome, Hperm. split.
  - intros Ha Hp. destruct authStatus; try reflexivity; contradiction.
  - intros [-> | ->]; reflexivity.
Qed.

Lemma checkPendingNotifications_spec initial w :
  getInitialNotification E = Ok (Some initial) ->
  checkPendingNotifications E w
  = (Ok tt,
     record OnForegroundEvent
       (set_timers
          (timers w ++
           if is_ride_request (nn_data (in_notification initial))
           then [(3000%Z, EmitLater "rideRequest" (nn_data (in_notification initial)))]
           else [])
          (record GetInitialNotification w))).
Proof.
  intros Hinit.
  unfold checkPendingNotifications, try_catch, bind, sdk, setTimeout, modify, ret.
  rewrite Hinit.
  destruct (is_ride_request (nn_data (in_notification initial))).
  - destruct (onForegroundEvent E) as [[]|e]; reflexivity.
  - destruct (onForegroundEvent E) as [[]|e]; simpl;
      rewrite app_nil_r; destruct w; reflexivity.
Qed.

(** C10: when the application was opened from a notification,
    [checkPendingNotifications] schedules one [rideRequest] emission
    carrying the notification's data, with a delay of 3000 ms, exactly
    when that data's [type] is ["ride_request"], and emits nothing
    itself; the scheduled callback, once run, emits [rideRequest] with
    that data. *)
Theorem C10_cold_start_schedules_ride_request initial w :
  getInitialNotification E = Ok (Some initial) ->
  let data := nn_data (in_notification initial) in
  let r := checkPendingNotifications E w in
  fst r = Ok tt
  /\ timers (snd r)
     = timers w ++
       (if is_ride_request data
        then [(3000%Z, EmitLater "rideRequest" data)] else [])
  /\ (forall event d, ~ In (Emit event d) (new_calls w (snd r)))
  /\ (forall w2 : world A,
        exists fs,
          new_calls w2 (snd (run_task closures (EmitLater "rideRequest" data) w2))
          = Emit "rideRequest" data
              :: map (fun callback => Listener callback data) fs
          /\ ((forall f, In f (registered "rideRequest" w2) ->
                         keeps_array closures "rideRequest" data f) ->
              fs = registered "rideRequest" w2)).
Proof.
  intros Hinit data r. unfold r.
  rewrite (checkPendingNotifications_spec initial w Hinit). cbn [fst snd].
  split; [reflexivity|]. split; [reflexivity|]. split.
  - intros event d. unfold new_calls. simpl. rewrite <- app_assoc.
    rewrite drop_app_length. intros [H | [H | []]]; discriminate.
  - intros w2. unfold run_task.
    destruct (emit_run A closures "rideRequest" data w2)
      as (fs & _ & Htr & _ & _ & _ & _ & _ & Hkeeps & _).
    exists fs. split; [now apply new_calls_app|].
    intros Hk. now destruct (Hkeeps Hk).
Qed.

End Lifecycle.


(** ** The properties on concrete runs *)

(** C1: the background handler rejects when the storage write of the
    pending ride request fails: the write is the one awaited call of
    the handler outside a [try]. *)
Theorem C1_background_handler_rejects_when_write_fails :
  JS.get (rm_data ride_7) "type" = JS.VStr "ride_request"
  /\ setItem storage_full "pendingRideRequest"
       (JS.json_object [("type", JS.VStr "ride_request"); ("rideId", JS.VStr "7")])
     = Throw (Error "database or disk is full")
  /\ fst (backgroundHandler storage_full ride_7 fresh)
     = Throw (Error "database or disk is full").
Proof. vm_compute. auto. Qed.

(** A failing render alone does not make the background handler
    reject. *)
Example background_handler_survives_render_failure :
  (exists p,
     new_calls fresh (snd (backgroundHandler downstream_failing promo fresh))
     = [DisplayNotification p]
     /\ displayNotification downstream_failing p = Throw (Error "render failed"))
  /\ fst (backgroundHandler downstream_failing promo fresh) = Ok tt.
Proof. split; [eexists; split; reflexivity | reflexivity]. Qed.

(** The listeners get the message's data as it came; the renderer gets
    the coerced copy. *)
Example foreground_emits_uncoerced_data :
  new_calls fresh (snd (foregroundHandler counting all_fine ride_with_fare
                          (snd (on "rideRequest" 2 fresh))))
  = [DisplayNotification
       (notification_of
          {| dr_title := default_title; dr_body := default_body;
             dr_data := rm_data ride_with_fare |}
          [("type", JS.VStr "ride_request"); ("fare", JS.VStr "120")]);
     Emit "rideRequest" (rm_data ride_with_fare);
     Listener 2 (rm_data ride_with_fare)]
  /\ JS.get (rm_data ride_with_fare) "fare"
     = JS.VNum {| JS.int_val := 120; JS.int_safe := eq_refl |}.
Proof. vm_compute. auto. Qed.

(** C4 as stated fails: for a message with a notification part the
    foreground handler shows the notification's title and body, the
    background handler the default texts. *)
Lemma C4_counterexample_notification_title :
  foreground_request promo
  = {| dr_title := JS.VStr "Bonus week"; dr_body := JS.VStr "Earn more";
       dr_data := rm_data promo |}
  /\ background_request promo
     = {| dr_title := default_title; dr_body := default_body;
          dr_data := rm_data promo |}
  /\ foreground_request promo <> background_request promo
  /\ map p_title
       (displayed (new_calls fresh (snd (foregroundHandler counting all_fine promo fresh))))
     = [JS.VStr "Bonus week"]
  /\ map p_title
       (displayed (new_calls fresh (snd (backgroundHandler all_fine promo fresh))))
     = [default_title].
Proof. repeat split. discriminate. Qed.

(** Both handlers render a data-only message alike; so they do when
    the title in the data is the empty string, which falls back to the
    default as the missing notification part does. *)
Example same_rendering_for_data_only_message :
  displayed (new_calls fresh (snd (foregroundHandler counting all_fine ride_7 fresh)))
  = displayed (new_calls fresh (snd (backgroundHandler all_fine ride_7 fresh)))
  /\ notification_title empty_title <> JS.get (rm_data empty_title) "title"
  /\ displayed (new_calls fresh (snd (foregroundHandler counting all_fine empty_title fresh)))
     = displayed (new_calls fresh (snd (backgroundHandler all_fine empty_title fresh))).
Proof. split; [reflexivity|]. split; [discriminate | reflexivity]. Qed.

(** C5 as stated fails: a data-only ride request that carries a [title]
    entry is shown under that title, not under the default one. *)
Lemma C5_counterexample_title_in_data :
  rm_notification ride_titled = None
  /\ JS.get (rm_data ride_titled) "type" = JS.VStr "ride_request"
  /\ (exists p rest,
        new_calls fresh (snd (backgroundHandler all_fine ride_titled fresh))
        = DisplayNotification p :: rest
        /\ p_title p = JS.VStr "Airport pickup")
  /\ JS.VStr "Airport pickup" <> default_title.
Proof.
  split; [reflexivity|]. split; [reflexivity|]. split; [|discriminate].
  eexists. eexists. split; [vm_compute; reflexivity | reflexivity].
Qed.

(** The specification's scenario: [{type: "ride_request", rideId: "7"}]
    in the background. *)
Lemma C5_background_ride_7 :
  exists json,
    JS.json_stringify (rm_data ride_7) = Some json
    /\ new_calls fresh (snd (backgroundHandler all_fine ride_7 fresh))
       = display_calls (background_request ride_7)
         ++ [SetItem "pendingRideRequest" json]
    /\ (forall p, In (DisplayNotification p) (display_calls (background_request ride_7)) ->
          p_title p = JS.or_else (JS.get (rm_data ride_7) "title") default_title
          /\ (JS.truthy (JS.get (rm_data ride_7) "title") = false ->
              p_title p = default_title))
    /\ ((exists p, display_calls (background_request ride_7) = [DisplayNotification p])
        <-> exists data, stringData (rm_data ride_7) = Ok data)
    /\ (setItem all_fine "pendingRideRequest" json = Ok tt ->
        fst (backgroundHandler all_fine ride_7 fresh) = Ok tt
        /\ storage (snd (backgroundHandler all_fine ride_7 fresh))
             !! "pendingRideRequest"
           = Some json).
Proof.
  apply (C5_background_ride_request nat all_fine ride_7 fresh). reflexivity.
Defined.

Example background_ride_7_stored :
  storage (snd (backgroundHandler all_fine ride_7 fresh)) !! "pendingRideRequest"
  = Some (JS.json_object [("type", JS.VStr "ride_request"); ("rideId", JS.VStr "7")])
  /\ map p_title
       (displayed (new_calls fresh (snd (backgroundHandler all_fine ride_7 fresh))))
     = [JS.VStr "🚖 New Ride Request"].
Proof. vm_compute. auto. Qed.

(** A ride request on whose data [String] throws is stored, but not
    shown. *)
Example background_ride_not_shown :
  new_calls fresh (snd (backgroundHandler all_fine ride_with_named_pickup fresh))
  = [SetItem "pendingRideRequest"
       (JS.json_object [("type", JS.VStr "ride_request");
                        ("pickup", JS.VObj [("toString", JS.VStr "x")])])].
Proof. vm_compute. reflexivity. Qed.

(** C6: the token-refresh callback does not replace the token: after a
    refresh to "new" the service still holds, and the storage still
    has, the token "old", although the callback resolved and emitted
    the event; [getFCMToken], run on the same state, replaces both. *)
Theorem C6_refresh_does_not_replace_token :
  let r := tokenRefreshHandler counting all_fine "new" with_old_token in
  fcmToken with_old_token = Some "old"
  /\ storage with_old_token !! "fcmToken" = Some "old"
  /\ fst r = Ok tt
  /\ new_calls with_old_token (snd r)
     = [GetItem "authToken"; Emit "tokenRefresh" (JS.VStr "new")]
  /\ fcmToken (snd r) = Some "old"
  /\ storage (snd r) !! "fcmToken" = Some "old"
  /\ fcmToken (snd (getFCMToken all_fine with_old_token)) = Some "token-1"
  /\ storage (snd (getFCMToken all_fine with_old_token)) !! "fcmToken"
     = Some "token-1".
Proof. vm_compute. repeat split. Qed.

(** Denied permission gives false; granted permission gives true even
    though channel creation, token retrieval and every registration
    fail. *)
Lemma C9_denied_and_granted_with_failures :
  fst (initializeNotifications permission_denied fresh) = Ok false
  /\ createChannel downstream_failing high_priority_channel
     = Throw (Error "channel rejected")
  /\ getToken downstream_failing = Throw (Error "SERVICE_NOT_AVAILABLE")
  /\ fst (initializeNotifications downstream_failing fresh) = Ok true.
Proof.
  split.
  - apply (C9_initialize_follows_permission nat permission_denied DENIED fresh);
      [reflexivity | discriminate | discriminate].
  - split; [reflexivity|]. split; [reflexivity|].
    apply (C9_initialize_follows_permission nat downstream_failing PROVISIONAL fresh);
      [reflexivity | now right].
Defined.

(** The specification's scenario: cold start from the notification of
    ride 42. *)
Lemma C10_cold_start_ride_42 :
  let r := checkPendingNotifications cold_start fresh in
  fst r = Ok tt
  /\ timers (snd r)
     = timers fresh ++
       (if is_ride_request ride_42
        then [(3000%Z, EmitLater "rideRequest" ride_42)] else [])
  /\ (forall event d, ~ In (Emit event d) (new_calls fresh (snd r)))
  /\ (forall w2 : world nat,
        exists fs,
          new_calls w2 (snd (run_task counting (EmitLater "rideRequest" ride_42) w2))
          = Emit "rideRequest" ride_42
              :: map (fun callback => Listener callback ride_42) fs
          /\ ((forall f, In f (registered "rideRequest" w2) ->
                         keeps_array counting "rideRequest" ride_42 f) ->
              fs = registered "rideRequest" w2)).
Proof.
  apply (C10_cold_start_schedules_ride_request nat counting cold_start
           {| in_notification := {| nn_data := ride_42 |} |} fresh).
  reflexivity.
Defined.

Example cold_start_timer :
  timers (snd (checkPendingNotifications cold_start fresh))
  = [(3000%Z, EmitLater "rideRequest" ride_42)].
Proof. reflexivity. Qed.

(** * Further properties of the service *)

(** ** Registering and removing listeners *)

Section Registry.

Variable A : Type.
Variable closures :
  fn_ref -> JS.value -> A -> outcome unit * A * list registry_call.

Implicit Types w : world A.

(** [off] of a callback that is not registered for the event, also of
    an event nobody ever registered for, changes nothing at all. *)
Theorem off_unregistered_changes_nothing event callback w :
  ~ In callback (registered event w) ->
  off event callback w = (Ok tt, w).
Proof.
  intros Hout. unfold off, bind, gets, modify, ret.
  destruct (has event w); [|reflexivity].
  unfold indexOf. now rewrite (indexOf_from_absent _ _ _ Hout).
Qed.

(** [off] removes the first registration of the callback and keeps
    the other listeners of the event in their order; it touches
    nothing else of the service. *)
Theorem off_removes_first_occurrence event callback w before after :
  registered event w = before ++ callback :: after ->
  ~ In callback before ->
  let r := off event callback w in
  fst r = Ok tt
  /\ registered event (snd r) = before ++ after
  /\ fcmToken (snd r) = fcmToken w
  /\ storage (snd r) = storage w
  /\ timers (snd r) = timers w
  /\ trace (snd r) = trace w
  /\ app (snd r) = app w.
Proof.
  intros Hreg Hfirst r. unfold r.
  rewrite (off_first_spec A event callback w before after Hreg Hfirst).
  cbn [fst snd]. repeat split.
  unfold registered. simpl. now rewrite lookup_insert_eq.
Qed.

(** Registering a callback that was not registered for the event and
    removing it again gives back the event's listeners as they were;
    the event stays known to the registry. *)
Theorem on_then_off_restores event callback w :
  ~ In callback (registered event w) ->
  let w' := snd (off event callback (snd (on event callback w))) in
  registered event w' = registered event w
  /\ has event w' = true
  /\ forall other, registered other w' = registered other w.
Proof.
  intros Hout w'.
  assert (Hw' : w' = set_listeners
                       (<[event := registered event w]> (listeners w)) w).
  { unfold w'. rewrite on_spec. cbn [snd].
    rewrite (off_first_spec A event callback _ (registered event w) []).
    - cbn [snd]. unfold set_listeners. simpl.
      now rewrite insert_insert_eq, app_nil_r.
    - unfold registered at 1. simpl. now rewrite lookup_insert_eq.
    - exact Hout. }
  rewrite Hw'. unfold registered, has. simpl.
  split; [now rewrite lookup_insert_eq|].
  split; [rewrite lookup_insert_eq; apply bool_decide_eq_true_2; eauto|].
  intros other. destruct (decide (event = other)) as [->|Hne].
  - now rewrite lookup_insert_eq.
  - now rewrite lookup_insert_ne.
Qed.

(** [on] and [off] for one event leave the listeners of every other
    event as they are. *)
Theorem on_off_leave_other_events event other callback w :
  event <> other ->
  registered other (snd (on event callback w)) = registered other w
  /\ registered other (snd (off event callback w)) = registered other w.
Proof.
  intros Hne. split.
  - rewrite on_spec. unfold registered at 1. simpl.
    now rewrite lookup_insert_ne.
  - unfold off, bind, gets, modify, ret.
    destruct (has event w); [|reflexivity].
    destruct (indexOf (registered event w) callback >? -1)%Z; [|reflexivity].
    unfold registered at 1. simpl. now rewrite lookup_insert_ne.
Qed.

End Registry.

Lemma off_unregistered_on_fresh :
  off "rideRequest" 3 (snd (on "rideRequest" 1 fresh))
  = (Ok tt, snd (on "rideRequest" 1 fresh)).
Proof.
  apply (off_unregistered_changes_nothing nat "rideRequest" 3).
  vm_compute. intros [H|[]]. discriminate.
Defined.

Lemma off_removes_first_of_two :
  let w := snd (on "rideRequest" 7 (snd (on "rideRequest" 5
             (snd (on "rideRequest" 7 (snd (on "rideRequest" 5 fresh))))))) in
  let r := off "rideRequest" 7 w in
  fst r = Ok tt
  /\ registered "rideRequest" (snd r) = [5] ++ [5; 7]
  /\ fcmToken (snd r) = fcmToken w
  /\ storage (snd r) = storage w
  /\ timers (snd r) = timers w
  /\ trace (snd r) = trace w
  /\ app (snd r) = app w.
Proof.
  apply (off_removes_first_occurrence nat "rideRequest" 7 _ [5] [5; 7]).
  - reflexivity.
  - intros [H|[]]. discriminate.
Defined.

Lemma on_then_off_restores_two_listeners :
  let w := snd (on "rideRequest" 2 (snd (on "rideRequest" 1 fresh))) in
  let w' := snd (off "rideRequest" 9 (snd (on "rideRequest" 9 w))) in
  registered "rideRequest" w' = registered "rideRequest" w
  /\ has "rideRequest" w' = true
  /\ forall other, registered other w' = registered other w.
Proof.
  apply (on_then_off_restores nat "rideRequest" 9).
  vm_compute. intros [H|[H|[]]]; discriminate.
Defined.

Lemma on_off_leave_token_listeners :
  registered "tokenRefresh" (snd (on "rideRequest" 9 logged_in))
    = registered "tokenRefresh" logged_in
  /\ registered "tokenRefresh" (snd (off "rideRequest" 9 logged_in))
     = registered "tokenRefresh" logged_in.
Proof.
  apply (on_off_leave_other_events nat "rideRequest" "tokenRefresh" 9 logged_in).
  discriminate.
Defined.

(** ** What is rendered *)

Lemma coerced_props_keys ps sd :
  coerced_props ps = Ok sd ->
  map fst sd = filter (fun k => negb (String.eqb k "__proto__")) (map fst ps).
Proof.
  revert sd. induction ps as [|[k v] ps IH]; intros sd; simpl.
  - intros H. inversion H. reflexivity.
  - destruct (JS.js_String v) as [s|e]; [|discriminate].
    destruct (coerced_props ps) as [rest|e]; [|discriminate].
    rewrite filter_cons. case_decide as Hk; destruct (String.eqb k "__proto__");
      simpl in Hk; try (exfalso; now apply Hk); try (exfalso; exact Hk);
      intros H; inversion H; subst sd; simpl; now rewrite (IH rest eq_refl).
Qed.

Lemma coerced_props_strings ps :
  Forall (fun kv => JS.is_str (snd kv) = true) ps ->
  ~ In "__proto__" (map fst ps) ->
  coerced_props ps = Ok ps.
Proof.
  induction 1 as [|[k v] ps Hv Hps IH]; simpl; intros Hproto; [reflexivity|].
  destruct v; try discriminate. simpl.
  rewrite IH by (intros Hin; apply Hproto; now right).
  destruct (String.eqb k "__proto__") eqn:Hk; [|reflexivity].
  apply String.eqb_eq in Hk. exfalso. apply Hproto. now left.
Qed.

(** For truthy data whose keys are distinct (every object), the
    coercion loop is a map over the properties from left to right: it
    throws when [String] throws on a value, and otherwise gives, in the
    order of the data's keys and without an own [__proto__] key, each
    key with [String] of its value. *)
Theorem rendered_data_keeps_keys_and_order n :
  JS.truthy (dr_data n) = true ->
  NoDup (JS.keys (dr_data n)) ->
  stringData (dr_data n) = coerced_props (JS.own_props (dr_data n))
  /\ (forall p, rendered n = Ok p ->
        map fst (p_data p)
        = filter (fun k => negb (String.eqb k "__proto__")) (JS.keys (dr_data n))).
Proof.
  intros Ht Hnodup. pose proof (stringData_map _ Ht Hnodup) as Hmap.
  split; [exact Hmap|].
  intros p Hp. unfold rendered in Hp. rewrite Hmap in Hp.
  destruct (coerced_props (JS.own_props (dr_data n))) as [sd|e] eqn:Hsd;
    [|discriminate].
  inversion Hp; subst p. cbn [p_data notification_of].
  now apply coerced_props_keys.
Qed.

(** Data that already consists of strings and has no [__proto__] key
    of its own, as the push provider delivers it, reaches the renderer
    unchanged. *)
Theorem string_data_is_rendered_unchanged title body ps :
  NoDup (map fst ps) ->
  Forall (fun kv => JS.is_str (snd kv) = true) ps ->
  ~ In "__proto__" (map fst ps) ->
  rendered {| dr_title := title; dr_body := body; dr_data := JS.VObj ps |}
  = Ok (notification_of
          {| dr_title := title; dr_body := body; dr_data := JS.VObj ps |} ps).
Proof.
  intros Hnodup Hstr Hproto. unfold rendered. cbn [dr_data].
  rewrite (stringData_map (JS.VObj ps) eq_refl Hnodup). cbn [JS.own_props].
  now rewrite (coerced_props_strings ps Hstr Hproto).
Qed.

Lemma rendered_ride_with_fare :
  stringData (dr_data (background_request ride_with_fare))
    = coerced_props (JS.own_props (dr_data (background_request ride_with_fare)))
  /\ (forall p, rendered (background_request ride_with_fare) = Ok p ->
        map fst (p_data p)
        = filter (fun k => negb (String.eqb k "__proto__"))
            (JS.keys (dr_data (background_request ride_with_fare)))).
Proof.
  apply (rendered_data_keeps_keys_and_order (background_request ride_with_fare)).
  - reflexivity.
  - apply (bool_decide_unpack _). vm_compute. exact I.
Defined.

(** The data of [testNotification] is shown as written. *)
Lemma test_notification_data_unchanged :
  rendered {| dr_title := JS.VStr "🔊 Sound Test";
              dr_body := JS.VStr "This should work NOW without vibration errors!";
              dr_data := JS.VObj [("test", JS.VStr "true");
                                  ("sound", JS.VStr "enabled");
                                  ("type", JS.VStr "test_notification")] |}
  = Ok (notification_of
          {| dr_title := JS.VStr "🔊 Sound Test";
             dr_body := JS.VStr "This should work NOW without vibration errors!";
             dr_data := JS.VObj [("test", JS.VStr "true");
                                 ("sound", JS.VStr "enabled");
                                 ("type", JS.VStr "test_notification")] |}
          [("test", JS.VStr "true"); ("sound", JS.VStr "enabled");
           ("type", JS.VStr "test_notification")]).
Proof.
  apply string_data_is_rendered_unchanged.
  - apply (bool_decide_unpack _). vm_compute. exact I.
  - repeat constructor.
  - intros [H|[H|[H|[]]]]; discriminate.
Defined.

(** ** What the handlers leave alone *)

Section HandlerFrames.

Variable A : Type.
Variable closures :
  fn_ref -> JS.value -> A -> outcome unit * A * list registry_call.
Variable E : env.

Implicit Types (w : world A) (m : remote_message).

(** [showLocalNotification] resolves whatever the renderer answers, and
    changes nothing of the service, the storage, the timers or the
    application. *)
Theorem showLocalNotification_swallows_render_failure n w :
  let r := showLocalNotification E n w in
  fst r = Ok tt
  /\ listeners (snd r) = listeners w
  /\ fcmToken (snd r) = fcmToken w
  /\ notificationInitialized (snd r) = notificationInitialized w
  /\ storage (snd r) = storage w
  /\ timers (snd r) = timers w
  /\ app (snd r) = app w.
Proof. intros r. unfold r. rewrite showLocalNotification_spec. repeat split. Qed.

(** For a message that is not a ride request the background handler
    resolves whatever the collaborators answer; its one call, if any
    ([String] may throw on the data), is the render call and the
    storage is not written. *)
Theorem background_handler_other_message m w :
  is_ride_request (rm_data m) = false ->
  backgroundHandler E m w
  = (Ok tt, extend (display_calls (background_request m)) (app w) w)
  /\ length (display_calls (background_request m)) <= 1
  /\ forall c, In c (display_calls (background_request m)) ->
                exists p, c = DisplayNotification p.
Proof.
  intros Hother. rewrite backgroundHandler_spec. cbn zeta. rewrite Hother.
  split; [reflexivity|]. unfold display_calls.
  destruct (rendered (background_request m)) as [p|e]; simpl.
  - split; [lia|]. intros c [<-|[]]. eauto.
  - split; [lia|]. intros c [].
Qed.

(** The background handler never emits an event and never calls a
    listener; it leaves the registry, the cached token, the timers and
    the application alone, and in the storage it can only change the
    key [pendingRideRequest]. *)
Theorem background_handler_is_silent m w :
  let r := backgroundHandler E m w in
  invoked_listeners (new_calls w (snd r)) = []
  /\ (forall event d, ~ In (Emit event d) (new_calls w (snd r)))
  /\ listeners (snd r) = listeners w
  /\ fcmToken (snd r) = fcmToken w
  /\ timers (snd r) = timers w
  /\ app (snd r) = app w
  /\ (forall key, key <> "pendingRideRequest" ->
        storage (snd r) !! key = storage w !! key).
Proof.
  intros r. unfold r. rewrite backgroundHandler_calls.
  split; [|split].
  - unfold display_calls.
    destruct (rendered (background_request m)), (is_ride_request (rm_data m));
      try destruct (JS.json_stringify (rm_data m)); reflexivity.
  - intros event d Hin. apply in_app_or in Hin as [Hin|Hin].
    + now apply no_emit_in_display_calls in Hin.
    + destruct (is_ride_request (rm_data m)); [|destruct Hin].
      destruct (JS.json_stringify (rm_data m)); [|destruct Hin].
      destruct Hin as [Hin|[]]. discriminate.
  - rewrite backgroundHandler_spec. cbn zeta.
    destruct (is_ride_request (rm_data m)); [|repeat split].
    destruct (JS.json_stringify (rm_data m)) as [json|]; [|repeat split].
    destruct (setItem E "pendingRideRequest" json) as [[]|e]; cbn [snd];
      repeat split.
    intros key Hkey. simpl. now rewrite lookup_insert_ne.
Qed.

(** The foreground handler writes nothing to the storage and leaves
    the cached token alone: a ride request received in the foreground
    is not stored as pending.  The registry is as the listeners leave
    it: unchanged when they call neither [on] nor [off]. *)
Theorem foreground_handler_stores_nothing m w :
  let r := foregroundHandler closures E m w in
  storage (snd r) = storage w
  /\ (forall key val, ~ In (SetItem key val) (new_calls w (snd r)))
  /\ ((forall f, In f (registered "rideRequest" w) -> quiet closures (rm_data m) f) ->
      listeners (snd r) = listeners w)
  /\ fcmToken (snd r) = fcmToken w.
Proof.
  intros r. unfold r.
  destruct (foregroundHandler_run A closures E m w)
    as (fs & _ & Htr & Htoken & _ & Hstorage & _ & _ & Hquiet).
  split; [exact Hstorage|]. split; [|split; [exact Hquiet | exact Htoken]].
  intros key val. rewrite (new_calls_app _ _ _ Htr). intros Hin.
  apply in_app_or in Hin as [Hin|Hin].
  - unfold display_calls in Hin.
    destruct (rendered (foreground_request m)); [|destruct Hin].
    destruct Hin as [Hin|[]]. discriminate.
  - destruct (is_ride_request (rm_data m)); [|destruct Hin].
    destruct Hin as [Hin|Hin]; [discriminate|].
    apply in_map_iff in Hin as (f & Hf & _). discriminate.
Qed.

End HandlerFrames.

Lemma background_promo_despite_failures :
  backgroundHandler downstream_failing promo fresh
  = (Ok tt, extend (display_calls (background_request promo)) (app fresh) fresh)
  /\ length (display_calls (background_request promo)) <= 1
  /\ forall c, In c (display_calls (background_request promo)) ->
                exists p, c = DisplayNotification p.
Proof.
  apply (background_handler_other_message nat downstream_failing promo fresh).
  reflexivity.
Defined.

(** ** The token *)

Section Token.

Variable A : Type.
Variable closures :
  fn_ref -> JS.value -> A -> outcome unit * A * list registry_call.
Variable E : env.

Implicit Types w : world A.

Lemma getFCMToken_spec w :
  getFCMToken E w
  = match getToken E with
    | Ok token =>
        if nonempty token then
          let cached := set_fcmToken (Some token) (record GetToken w) in
          match setItem E "fcmToken" token with
          | Ok _ =>
              (Ok (Some token),
               set_storage (<["fcmToken" := token]> (storage w))
                 (record (SetItem "fcmToken" token) cached))
          | Throw _ => (Ok None, record (SetItem "fcmToken" token) cached)
          end
        else (Ok None, record GetToken w)
    | Throw _ => (Ok None, record GetToken w)
    end.
Proof.
  unfold getFCMToken, try_catch, bind, sdk, modify, AsyncStorage_setItem,
    bind, sdk, modify, ret.
  destruct (getToken E) as [token|e]; [|reflexivity].
  destruct (nonempty token); [|reflexivity]. cbn zeta.
  destruct (setItem E "fcmToken" token) as [[]|e]; reflexivity.
Qed.

(** Whenever [getFCMToken] returns a token, it is the provider's token,
    the service caches it and the storage holds it under [fcmToken];
    the other keys of the storage are as before. *)
Theorem getFCMToken_returns_what_it_stored token w :
  fst (getFCMToken E w) = Ok (Some token) ->
  getToken E = Ok token
  /\ fcmToken (snd (getFCMToken E w)) = Some token
  /\ storage (snd (getFCMToken E w)) !! "fcmToken" = Some token
  /\ (forall key, key <> "fcmToken" ->
        storage (snd (getFCMToken E w)) !! key = storage w !! key).
Proof.
  rewrite getFCMToken_spec.
  destruct (getToken E) as [t|e]; [|discriminate].
  destruct (nonempty t); [|discriminate]. cbn zeta.
  destruct (setItem E "fcmToken" t) as [[]|e]; [|discriminate].
  cbn [fst snd]. intros H. inversion H; subst t. simpl.
  repeat split.
  - apply lookup_insert_eq.
  - intros key Hkey. now rewrite lookup_insert_ne.
Qed.

(** When the storage refuses the write, [getFCMToken] returns null and
    the storage is as before, but the service already caches the new
    token. *)
Theorem getFCMToken_write_failure_keeps_cache token e w :
  getToken E = Ok token -> nonempty token = true ->
  setItem E "fcmToken" token = Throw e ->
  fst (getFCMToken E w) = Ok None
  /\ fcmToken (snd (getFCMToken E w)) = Some token
  /\ storage (snd (getFCMToken E w)) = storage w.
Proof.
  intros Htoken Hnonempty Hwrite.
  rewrite getFCMToken_spec, Htoken, Hnonempty. cbn zeta. rewrite Hwrite.
  repeat split.
Qed.

(** When the provider gives no token (it rejects, or the token is the
    empty string), [getFCMToken] returns null, writes nothing and keeps
    the token the service cached before. *)
Theorem getFCMToken_without_token w :
  (forall token, getToken E = Ok token -> nonempty token = false) ->
  getFCMToken E w = (Ok None, record GetToken w).
Proof.
  intros Hnone. rewrite getFCMToken_spec.
  destruct (getToken E) as [token|e]; [|reflexivity].
  now rewrite (Hnone token eq_refl).
Qed.

(** The calls of a token refresh: the auth token is read; the backend
    is contacted, with the bearer header and the new token in the body,
    exactly when a non-empty auth token could be read; then
    [tokenRefresh] is emitted with the new token, whatever the read and
    the backend answered, and reaches every listener of the event, in
    order, when none of them unregisters a listener of the event
    meanwhile.  The handler resolves. *)
Theorem tokenRefresh_calls newToken w :
  let r := tokenRefreshHandler closures E newToken w in
  fst r = Ok tt
  /\ exists fs,
       new_calls w (snd r)
       = GetItem "authToken"
         :: match getItem E "authToken", storage w !! "authToken" with
            | Ok _, Some auth =>
                if nonempty auth
                then [Fetch (API_BASE +:+ "/drivers/update-fcm-token")
                            ("Bearer " +:+ auth)
                            (update_fcm_token_body E newToken)]
                else []
            | _, _ => []
            end
         ++ Emit "tokenRefresh" (JS.VStr newToken)
            :: map (fun callback => Listener callback (JS.VStr newToken)) fs
       /\ ((forall f, In f (registered "tokenRefresh" w) ->
                      keeps_array closures "tokenRefresh" (JS.VStr newToken) f) ->
           fs = registered "tokenRefresh" w).
Proof.
  intros r. unfold r.
  destruct (tokenRefreshHandler_run A closures E newToken w)
    as (fs & Hok & Htr & _ & _ & Hkeeps).
  split; [exact Hok|]. exists fs.
  split; [now apply new_calls_app | exact Hkeeps].
Qed.

End Token.

Lemma getFCMToken_all_fine :
  getToken all_fine = Ok "token-1"
  /\ fcmToken (snd (getFCMToken all_fine with_old_token)) = Some "token-1"
  /\ storage (snd (getFCMToken all_fine with_old_token)) !! "fcmToken"
     = Some "token-1"
  /\ (forall key, key <> "fcmToken" ->
        storage (snd (getFCMToken all_fine with_old_token)) !! key
        = storage with_old_token !! key).
Proof.
  apply (getFCMToken_returns_what_it_stored nat all_fine "token-1" with_old_token).
  reflexivity.
Defined.

Lemma getFCMToken_storage_full :
  fst (getFCMToken storage_full with_old_token) = Ok None
  /\ fcmToken (snd (getFCMToken storage_full with_old_token)) = Some "token-1"
  /\ storage (snd (getFCMToken storage_full with_old_token))
     = storage with_old_token.
Proof.
  apply (getFCMToken_write_failure_keeps_cache nat storage_full "token-1"
           (Error "database or disk is full") with_old_token);
    reflexivity.
Defined.

Lemma getFCMToken_provider_down :
  getFCMToken downstream_failing with_old_token
  = (Ok None, record GetToken with_old_token).
Proof.
  apply (getFCMToken_without_token nat downstream_failing with_old_token).
  intros token H. discriminate H.
Defined.

(** A refresh while logged in and offline: the backend is tried, the
    listener is told all the same. *)
Example token_refresh_offline :
  new_calls logged_in (snd (tokenRefreshHandler counting offline "new" logged_in))
  = [GetItem "authToken";
     Fetch "https://backendddd-2xa6.onrender.com/drivers/update-fcm-token"
           "Bearer jwt-1"
           (JS.json_object [("driverId", JS.VStr "YOUR_DRIVER_ID");
                            ("fcmToken", JS.VStr "new");
                            ("platform", JS.VStr "android")]);
     Emit "tokenRefresh" (JS.VStr "new");
     Listener 2 (JS.VStr "new")].
Proof. vm_compute. reflexivity. Qed.

(** ** Initialization and startup, step by step *)

Section Startup.

Variable A : Type.
Variable closures :
  fn_ref -> JS.value -> A -> outcome unit * A * list registry_call.
Variable E : env.

Implicit Types w : world A.

Lemma bind_run {T U} (step : M A T) (k : T -> M A U) w x w' :
  step w = (Ok x, w') -> bind step k w = k x w'.
Proof. unfold bind. now intros ->. Qed.

Lemma createNotificationChannel_spec w :
  createNotificationChannel A E w
  = (Ok tt,
     match platform_OS E with
     | android => record (CreateChannel high_priority_channel) w
     | ios => w
     end).
Proof.
  unfold createNotificationChannel, try_catch, sdk, ret.
  destruct (platform_OS E); [|reflexivity].
  destruct (createChannel E high_priority_channel) as [[]|e]; reflexivity.
Qed.

(** [createNotificationChannel] never throws; on iOS it calls nothing,
    on Android it asks once for the high-priority channel, and a
    refusal goes no further.  The channel it asks for is the one
    [showLocalNotification] names in every notification. *)
Theorem createNotificationChannel_is_best_effort w :
  let r := createNotificationChannel A E w in
  fst r = Ok tt
  /\ new_calls w (snd r)
     = match platform_OS E with
       | android => [CreateChannel high_priority_channel]
       | ios => []
       end
  /\ (forall n p, rendered n = Ok p ->
        an_channelId (p_android p) = ch_id high_priority_channel)
  /\ storage (snd r) = storage w
  /\ fcmToken (snd r) = fcmToken w
  /\ listeners (snd r) = listeners w.
Proof.
  intros r. unfold r. rewrite createNotificationChannel_spec. cbn [fst snd].
  split; [reflexivity|]. split.
  - destruct (platform_OS E); [apply new_calls_record | apply new_calls_same].
  - split.
    + intros n p Hp. unfold rendered in Hp.
      destruct (stringData (dr_data n)); [|discriminate].
      inversion Hp. reflexivity.
    + destruct (platform_OS E); repeat split.
Qed.

Lemma setupForegroundHandler_spec w :
  setupForegroundHandler A E w = (Ok tt, record OnMessage w).
Proof.
  unfold setupForegroundHandler, try_catch, sdk, ret.
  destruct (onMessage E) as [[]|e]; reflexivity.
Qed.

Lemma setupBackgroundHandler_spec w :
  setupBackgroundHandler A E w = (Ok tt, record SetBackgroundMessageHandler w).
Proof.
  unfold setupBackgroundHandler, try_catch, sdk, ret.
  destruct (setBackgroundMessageHandler E) as [[]|e]; reflexivity.
Qed.

Lemma setupTokenRefreshHandler_spec w :
  setupTokenRefreshHandler A E w = (Ok tt, record OnTokenRefresh w).
Proof.
  unfold setupTokenRefreshHandler, try_catch, sdk, ret.
  destruct (onTokenRefresh E) as [[]|e]; reflexivity.
Qed.

(** Without a granted permission (the status is neither authorized nor
    provisional, or the request itself fails) initialization stops
    after the permission request: no channel, no token, no handler,
    and the service is not marked initialized. *)
Theorem initialize_stops_without_permission w :
  requestPermission E <> Ok AUTHORIZED ->
  requestPermission E <> Ok PROVISIONAL ->
  initializeNotifications E w = (Ok false, record RequestPermission w).
Proof.
  intros Ha Hp. unfold initializeNotifications, try_catch.
  unfold bind at 1. unfold sdk at 1.
  destruct (requestPermission E) as [[]|e]; try reflexivity; contradiction.
Qed.

(** With the permission granted, initialization asks for the channel
    (on Android), fetches the token and registers the three handlers,
    each exactly once and in this order, whatever any of these steps
    answers; it marks the service initialized and leaves the registry
    and the timers alone. *)
Theorem initialize_runs_every_step authStatus w :
  requestPermission E = Ok authStatus ->
  enabled authStatus = true ->
  let r := initializeNotifications E w in
  fst r = Ok true
  /\ notificationInitialized (snd r) = true
  /\ new_calls w (snd r)
     = RequestPermission
       :: match platform_OS E with
          | android => [CreateChannel high_priority_channel]
          | ios => []
          end
       ++ GetToken
          :: match getToken E with
             | Ok token => if nonempty token then [SetItem "fcmToken" token] else []
             | Throw _ => []
             end
       ++ [OnMessage; SetBackgroundMessageHandler; OnTokenRefresh]
  /\ listeners (snd r) = listeners w
  /\ timers (snd r) = timers w.
Proof.
  intros Hperm Henabled r.
  set (w1 := match platform_OS E with
             | android => record (CreateChannel high_priority_channel)
                            (record RequestPermission w)
             | ios => record RequestPermission w
             end).
  assert (Htoken : exists o w2,
            getFCMToken E w1 = (Ok o, w2)
            /\ listeners w2 = listeners w /\ timers w2 = timers w
            /\ trace w2
               = trace w ++ RequestPermission
                   :: match platform_OS E with
                      | android => [CreateChannel high_priority_channel]
                      | ios => []
                      end
                   ++ GetToken
                      :: match getToken E with
                         | Ok token =>
                             if nonempty token then [SetItem "fcmToken" token] else []
                         | Throw _ => []
                         end).
  { rewrite getFCMToken_spec. unfold w1.
    destruct (platform_OS E); destruct (getToken E) as [token|e];
      try destruct (nonempty token); cbn zeta;
      try destruct (setItem E "fcmToken" token) as [[]|e'];
      eexists; eexists; (split; [reflexivity|]); simpl;
      rewrite <- ?app_assoc; repeat split. }
  destruct Htoken as (o & w2 & Hrun & Hl & Ht & Htrace).
  assert (Hr : r = (Ok true,
                    set_notificationInitialized true
                      (record OnTokenRefresh
                         (record SetBackgroundMessageHandler
                            (record OnMessage w2))))).
  { unfold r, initializeNotifications, try_catch.
    unfold bind at 1. unfold sdk at 1. rewrite Hperm, Henabled. cbn [negb].
    rewrite (bind_run _ _ _ _ _ (createNotificationChannel_spec _)).
    fold w1. rewrite (bind_run _ _ _ _ _ Hrun).
    rewrite (bind_run _ _ _ _ _ (setupForegroundHandler_spec _)).
    unfold bind at 1. unfold not_awaited at 1.
    rewrite setupBackgroundHandler_spec. cbn [snd].
    rewrite (bind_run _ _ _ _ _ (setupTokenRefreshHandler_spec _)).
    reflexivity. }
  rewrite Hr. cbn [fst snd].
  split; [reflexivity|]. split; [reflexivity|].
  split; [|split; assumption].
  unfold new_calls. simpl. rewrite Htrace.
  rewrite <- !app_assoc. rewrite drop_app_length. simpl.
  rewrite <- !app_assoc. reflexivity.
Qed.

(** [checkPendingNotifications] never throws.  It subscribes to the
    tap events exactly when the query for the initial notification did
    not fail, and it leaves the timers alone unless the application was
    opened from a notification. *)
Theorem checkPendingNotifications_is_best_effort w :
  let r := checkPendingNotifications E w in
  fst r = Ok tt
  /\ (In OnForegroundEvent (new_calls w (snd r))
      <-> exists o, getInitialNotification E = Ok o)
  /\ ((forall initial, getInitialNotification E <> Ok (Some initial)) ->
      timers (snd r) = timers w)
  /\ listeners (snd r) = listeners w
  /\ app (snd r) = app w.
Proof.
  intros r. unfold r.
  unfold checkPendingNotifications, try_catch, bind, sdk, setTimeout, modify, ret.
  assert (Hone : new_calls w (record GetInitialNotification w)
                 = [GetInitialNotification]) by apply new_calls_record.
  assert (Htwo : forall w1,
            trace w1 = trace w ++ [GetInitialNotification] ->
            new_calls w (record OnForegroundEvent w1)
            = [GetInitialNotification; OnForegroundEvent]).
  { intros w1 Hw1. unfold new_calls. simpl. rewrite Hw1, <- app_assoc.
    apply drop_app_length. }
  destruct (getInitialNotification E) as [[initial|]|e] eqn:Hinit; cbn [fst snd].
  - destruct (is_ride_request (nn_data (in_notification initial)));
      cbn [fst snd]; destruct (onForegroundEvent E) as [[]|e]; cbn [fst snd];
      rewrite Htwo by reflexivity;
      (split; [reflexivity|]);
      (split; [split; [eauto | intros _; right; now left]|]);
      (split; [intros Hno; exfalso; now apply (Hno initial)|]);
      split; reflexivity.
  - destruct (onForegroundEvent E) as [[]|e]; cbn [fst snd];
      rewrite Htwo by reflexivity;
      (split; [reflexivity|]);
      (split; [split; [eauto | intros _; right; now left]|]);
      repeat split.
  - rewrite Hone. split; [reflexivity|].
    split; [|repeat split].
    split; [intros [H|[]]; discriminate | intros [o Ho]; discriminate].
Qed.

(** The tap handler emits [rideRequest] exactly for a press on a
    notification whose data's [type] is ["ride_request"], at once (no
    timer) and with the notification's data. *)
Theorem foreground_event_emits_iff_pressed_ride_request pressed notification w :
  let r := foregroundEventHandler closures pressed notification w in
  fst r = Ok tt
  /\ timers (snd r) = timers w
  /\ (forall event d,
        In (Emit event d) (new_calls w (snd r))
        <-> pressed = true
            /\ exists n, notification = Some n
                 /\ JS.get (nn_data n) "type" = JS.VStr "ride_request"
                 /\ event = "rideRequest" /\ d = nn_data n).
Proof.
  intros r. unfold r, foregroundEventHandler.
  assert (Hnone : forall event d,
            In (Emit event d) (new_calls w (snd (ret (A:=A) tt w))) -> False).
  { intros event d. unfold ret. cbn [snd]. rewrite new_calls_same. intros []. }
  destruct pressed.
  - destruct notification as [n|].
    + destruct (is_ride_request (nn_data n)) eqn:Hride.
      * apply is_ride_request_spec in Hride.
        destruct (emit_run A closures "rideRequest" (nn_data n) w)
          as (fs & Hok & Htr & _ & _ & _ & _ & Htimers & _).
        split; [exact Hok|]. split; [exact Htimers|].
        rewrite (new_calls_app _ _ _ Htr).
        intros event d. split.
        -- intros [H|H].
           ++ inversion H; subst. split; [reflexivity|]. exists n. auto.
           ++ apply in_map_iff in H as (f & Hf & _). discriminate.
        -- intros (_ & n' & Hn & _ & -> & ->). inversion Hn; subst. now left.
      * split; [reflexivity|]. split; [reflexivity|].
        intros event d. split; [intros H; destruct (Hnone _ _ H)|].
        intros (_ & n' & Hn & Htype & _). inversion Hn; subst.
        apply is_ride_request_spec in Htype. congruence.
    + split; [reflexivity|]. split; [reflexivity|].
      intros event d. split; [intros H; destruct (Hnone _ _ H)|].
      intros (_ & n' & Hn & _). discriminate.
  - split; [reflexivity|]. split; [reflexivity|].
    intros event d. split; [intros H; destruct (Hnone _ _ H)|].
    intros (H & _). discriminate.
Qed.

(** The reason for the delay: a listener registered after
    [checkPendingNotifications] returned, while the timer is pending,
    is called with the ride request of the cold start when the timer's
    callback runs, provided no listener of the event unregisters a
    listener of the event during that emission. *)
Theorem late_listener_gets_cold_start_ride initial callback w :
  getInitialNotification E = Ok (Some initial) ->
  is_ride_request (nn_data (in_notification initial)) = true ->
  (forall f, In f (registered "rideRequest" w ++ [callback]) ->
             keeps_array closures "rideRequest" (nn_data (in_notification initial)) f) ->
  let data := nn_data (in_notification initial) in
  let w1 := snd (on "rideRequest" callback (snd (checkPendingNotifications E w))) in
  In (3000%Z, EmitLater "rideRequest" data) (timers w1)
  /\ In (Listener callback data)
        (new_calls w1 (snd (run_task closures (EmitLater "rideRequest" data) w1))).
Proof.
  intros Hinit Hride Hkeeps data w1.
  assert (Hreg : registered "rideRequest" w1 = registered "rideRequest" w ++ [callback]).
  { unfold w1. rewrite registered_on.
    now rewrite (checkPendingNotifications_spec A E initial w Hinit). }
  split.
  - unfold w1. rewrite on_spec, (checkPendingNotifications_spec A E initial w Hinit).
    cbn [snd]. simpl. rewrite Hride. apply in_or_app. right. now left.
  - unfold run_task.
    destruct (emit_run A closures "rideRequest" data w1)
      as (fs & _ & Htr & _ & _ & _ & _ & _ & Hk & _).
    destruct Hk as (Hfs & _); [rewrite Hreg; exact Hkeeps|].
    rewrite (new_calls_app _ _ _ Htr), Hfs, Hreg. right.
    apply in_map_iff. exists callback. split; [reflexivity|].
    apply in_or_app. right. now left.
Qed.

End Startup.

Lemma initialize_denied_stops :
  initializeNotifications permission_denied fresh
  = (Ok false, record RequestPermission fresh).
Proof.
  apply (initialize_stops_without_permission nat permission_denied fresh);
    discriminate.
Defined.

Lemma initialize_with_every_step_failing :
  let r := initializeNotifications downstream_failing fresh in
  fst r = Ok true
  /\ notificationInitialized (snd r) = true
  /\ new_calls fresh (snd r)
     = RequestPermission
       :: match platform_OS downstream_failing with
          | android => [CreateChannel high_priority_channel]
          | ios => []
          end
       ++ GetToken
          :: match getToken downstream_failing with
             | Ok token => if nonempty token then [SetItem "fcmToken" token] else []
             | Throw _ => []
             end
       ++ [OnMessage; SetBackgroundMessageHandler; OnTokenRefresh]
  /\ listeners (snd r) = listeners fresh
  /\ timers (snd r) = timers fresh.
Proof.
  apply (initialize_runs_every_step nat downstream_failing PROVISIONAL fresh);
    reflexivity.
Defined.

Lemma late_listener_gets_ride_42 :
  let w1 := snd (on "rideRequest" 2 (snd (checkPendingNotifications cold_start fresh))) in
  In (3000%Z, EmitLater "rideRequest" ride_42) (timers w1)
  /\ In (Listener 2 ride_42)
        (new_calls w1 (snd (run_task counting (EmitLater "rideRequest" ride_42) w1))).
Proof.
  apply (late_listener_gets_cold_start_ride nat counting cold_start
           {| in_notification := {| nn_data := ride_42 |} |} 2 fresh);
    [reflexivity | reflexivity | intros f _; apply counting_keeps].
Defined.

(** ** The login screen's input checks *)

Lemma iter_match_none (r : Login.regex) n :
  Nat.iter n
    (fun rest => match rest with Some s' => Login.match_prefix r s' | None => None end)
    None = None.
Proof. induction n as [|n IH]; simpl; [reflexivity | now rewrite IH]. Qed.

Lemma digits_exactly n s :
  Login.match_prefix (Login.Times n Login.digit) s = Some EmptyString
  <-> String.length s = n /\ Login.all_digits s = true.
Proof.
  revert s. induction n as [|n IH]; intros s.
  - simpl. destruct s; simpl; split.
    + auto.
    + auto.
    + discriminate.
    + intros [H _]. discriminate.
  - cbn [Login.match_prefix]. rewrite Nat.iter_succ_r.
    destruct s as [|c s].
    + rewrite iter_match_none. simpl. split; [discriminate | intros [H _]; discriminate].
    + change (Login.match_prefix Login.digit (String c s))
        with (if Login.is_digit c then Some s else None).
      cbn [Login.all_digits String.length].
      destruct (Login.is_digit c); cbn [andb].
      * specialize (IH s). cbn [Login.match_prefix] in IH. rewrite IH.
        split; intros [Hlen Hall]; split; auto.
      * rewrite iter_match_none. split; [discriminate | intros [_ H]; discriminate].
Qed.

Lemma isValidPhoneNumber_spec phone :
  Login.isValidPhoneNumber phone = true
  <-> exists c rest,
        phone = String c rest
        /\ Login.in_range "6" "9" c = true
        /\ String.length rest = 9
        /\ Login.all_digits rest = true.
Proof.
  unfold Login.isValidPhoneNumber, Login.test_whole.
  cbn [Login.match_prefix].
  destruct phone as [|c rest].
  - split; [discriminate | intros (c & rest & H & _); discriminate].
  - destruct (Login.in_range "6" "9" c) eqn:Hc.
    + change (Nat.iter 9 _ (Some rest))
        with (Login.match_prefix (Login.Times 9 Login.digit) rest).
      split.
      * intros H. exists c, rest. split; [reflexivity|]. split; [exact Hc|].
        apply digits_exactly.
        destruct (Login.match_prefix (Login.Times 9 Login.digit) rest) as [[|]|];
          [reflexivity | discriminate | discriminate].
      * intros (c' & rest' & Heq & _ & Hlen & Hall). inversion Heq; subst.
        now rewrite (proj2 (digits_exactly 9 rest') (conj Hlen Hall)).
    + split; [discriminate|].
      intros (c' & rest' & Heq & Hc' & _). inversion Heq; subst. congruence.
Qed.

Lemma keep_digits_of_digits s :
  Login.all_digits s = true -> Login.keep_digits s = s.
Proof.
  induction s as [|c s IH]; simpl; [reflexivity|].
  destruct (Login.is_digit c); simpl; [|discriminate].
  intros H. now rewrite IH.
Qed.

Lemma six_to_nine_is_digit c :
  Login.in_range "6" "9" c = true -> Login.is_digit c = true.
Proof.
  unfold Login.is_digit, Login.in_range. simpl.
  rewrite !andb_true_iff, !N.leb_le. lia.
Qed.

(** [isValidPhoneNumber] accepts exactly the strings of ten digits
    whose first digit is 6, 7, 8 or 9; in particular it refuses the
    empty input. *)
Theorem isValidPhoneNumber_exactly phone :
  Login.isValidPhoneNumber phone = true
  <-> String.length phone = 10
      /\ Login.all_digits phone = true
      /\ exists c rest, phone = String c rest /\ Login.in_range "6" "9" c = true.
Proof.
  rewrite isValidPhoneNumber_spec. split.
  - intros (c & rest & -> & Hc & Hlen & Hall).
    split; [simpl; now rewrite Hlen|].
    split; [simpl; now rewrite (six_to_nine_is_digit c Hc), Hall|].
    eauto.
  - intros (Hlen & Hall & c & rest & -> & Hc).
    exists c, rest. simpl in Hlen, Hall.
    apply andb_true_iff in Hall as [_ Hall].
    repeat split; auto.
Qed.

(** A number that [isValidPhoneNumber] accepts has ten characters, the
    length the text input allows, and is left as it is by the filter
    of the text input. *)
Theorem valid_phone_passes_input_filter phone :
  Login.isValidPhoneNumber phone = true ->
  String.length phone = 10 /\ Login.keep_digits phone = phone.
Proof.
  intros H. apply isValidPhoneNumber_spec in H
    as (c & rest & -> & Hc & Hlen & Hall).
  split; [simpl; now rewrite Hlen|].
  apply keep_digits_of_digits. simpl.
  now rewrite (six_to_nine_is_digit c Hc), Hall.
Qed.

(** The filter of the text inputs keeps digits only, and filtering
    again changes nothing. *)
Theorem keep_digits_only_digits text :
  Login.all_digits (Login.keep_digits text) = true
  /\ Login.keep_digits (Login.keep_digits text) = Login.keep_digits text
  /\ String.length (Login.keep_digits text) <= String.length text.
Proof.
  assert (Hall : Login.all_digits (Login.keep_digits text) = true).
  { induction text as [|c text IH]; simpl; [reflexivity|].
    destruct (Login.is_digit c) eqn:Hc; simpl; [now rewrite Hc | exact IH]. }
  split; [exact Hall|]. split; [now apply keep_digits_of_digits|].
  induction text as [|c text IH]; simpl; [lia|].
  destruct (Login.is_digit c); simpl.
  - apply le_n_S. apply IH.
    clear -Hall. simpl in Hall.
    destruct (Login.is_digit c); simpl in Hall; [|exact Hall].
    now apply andb_true_iff in Hall.
  - apply Nat.le_le_succ_r, IH. simpl in Hall.
    destruct (Login.is_digit c); [simpl in Hall; now apply andb_true_iff in Hall | exact Hall].
Qed.

Lemma valid_phone_9876543210 :
  String.length "9876543210" = 10
  /\ Login.keep_digits "9876543210" = "9876543210".
Proof.
  apply (valid_phone_passes_input_filter "9876543210"). reflexivity.
Defined.

Example phone_numbers :
  map Login.isValidPhoneNumber
    ["9876543210"; "5876543210"; "987654321"; "98765432100"; "98765x3210";
     EmptyString; "+919876543210"]
  = [true; false; false; false; false; false; false]
  /\ Login.keep_digits "+91 98765-43210" = "919876543210".
Proof. vm_compute. auto. Qed.

(** ** When the background handler rejects *)

(** The background handler rejects in one case only: the message is a
    ride request and the storage refuses the write of its JSON text;
    the handler then rejects with the storage's error.  The render
    call and the shape of the message cannot make it reject. *)
Theorem background_handler_rejects_only_on_write_failure
    (A : Type) (E : env) (m : remote_message) (w : world A) (e : exn) :
  fst (backgroundHandler E m w) = Throw e
  <-> JS.get (rm_data m) "type" = JS.VStr "ride_request"
      /\ exists ps, rm_data m = JS.VObj ps
           /\ setItem E "pendingRideRequest" (JS.json_object ps) = Throw e.
Proof.
  rewrite backgroundHandler_outcome.
  destruct (is_ride_request (rm_data m)) eqn:Hride.
  - destruct (ride_request_stringifies _ Hride) as (ps & Hdata & Hjson).
    rewrite Hjson. apply is_ride_request_spec in Hride. split.
    + intros Hwrite. split; [exact Hride|]. exists ps. now split.
    + intros (_ & ps' & Hdata' & Hwrite).
      rewrite Hdata in Hdata'. inversion Hdata'; subst. exact Hwrite.
  - split; [discriminate|]. intros (Htype & _).
    apply is_ride_request_spec in Htype. congruence.
Qed.
